(** * NesPlayer: a shallow embedding of [src/emulators/nes/NesPlayer.jsx]

    The React component [NesPlayer] keeps its state in refs and in React
    state cells, and talks to three collaborators that are not part of the
    repository: the [jsnes] emulation engine, the browser ([localStorage],
    [requestAnimationFrame], [AudioContext], the canvas) and the JavaScript
    built-ins ([JSON], [Date]).  The component is embedded as explicit state
    passing over a record [player]; the collaborators are parameters.

    - JavaScript numbers that the code only uses as integers are [Z];
      the 32-bit conversions of the bit operators are written out.
    - JavaScript strings are [string]; a binary string built with
      [String.fromCharCode(byte)] has one character per byte.
    - [localStorage] is a [gmap string string].
    - A typed array ([Uint8ClampedArray]) is a [list Z] updated with stdpp's
      list insert, which ignores writes that are out of range exactly as a
      typed array does.
    - A React state cell is read at its current value, and
      [localStorage.setItem] always has room.
    - A handler that can end in an uncaught exception ([reset], [loop])
      returns an [outcome] next to the state it leaves.
    - [loadRom] is asynchronous.  Its call, up to the [await], and the
      moment the read of the file resolves are two events; the reads that
      are pending are part of the state, and they resolve in any order,
      with any other events in between.
    - A [ScriptProcessorNode] is an object: it has an identity, and
      counts the calls of [connect]. *)

From Stdlib Require Import ZArith String Ascii List Bool Lia.
From Stdlib Require Import DecimalString HexadecimalString.
From stdpp Require Import base option list gmap strings.

Local Open Scope string_scope.
Local Open Scope Z_scope.

(* ===================================================================== *)
(** * JavaScript primitives used by the component *)
(* ===================================================================== *)

Module JS.

(** [ToInt32]: the conversion every bit operator applies to its operands. *)
Definition toInt32 (z : Z) : Z := (z + 2 ^ 31) mod 2 ^ 32 - 2 ^ 31.

(** [ToUint32], the conversion of [x >>> 0]. *)
Definition toUint32 (z : Z) : Z := z mod 2 ^ 32.

(** [a << n] *)
Definition shl (a n : Z) : Z := toInt32 (Z.shiftl (toInt32 a) (Z.land n 31)).

(** [a >> n] (sign propagating) *)
Definition sar (a n : Z) : Z := Z.shiftr (toInt32 a) (Z.land n 31).

(** [a >>> n] *)
Definition shr (a n : Z) : Z := Z.shiftr (toUint32 a) (Z.land n 31).

(** [a & b] *)
Definition band (a b : Z) : Z := Z.land (toInt32 a) (toInt32 b).

(** [a ^ b] *)
Definition bxor (a b : Z) : Z := Z.lxor (toInt32 a) (toInt32 b).

(** [String(n)] for a non-negative integer. *)
Definition dec (n : N) : string := DecimalString.NilZero.string_of_uint (N.to_uint n).

(** [n.toString(16)] for a non-negative integer: lower-case digits, no
    leading zeros. *)
Definition hex (n : N) : string :=
  HexadecimalString.NilZero.string_of_uint (N.to_hex_uint n).

(** [s.charCodeAt(i)] of the [i]-th character, character by character. *)
Definition charCode (c : ascii) : Z := Z.of_N (N_of_ascii c).

(** [s.length] *)
Definition strlen (s : string) : N := N.of_nat (String.length s).

(** [s.slice(0, n)] *)
Definition slice0 (n : nat) (s : string) : string := String.substring 0 n s.

Definition lower_ascii (c : ascii) : ascii :=
  let n := N_of_ascii c in
  if ((65 <=? n) && (n <=? 90))%N then ascii_of_N (n + 32) else c.

(** [s.toLowerCase()], on the ASCII letters. *)
Fixpoint toLowerCase (s : string) : string :=
  match s with
  | EmptyString => EmptyString
  | String c r => String (lower_ascii c) (toLowerCase r)
  end.

(** [s.endsWith(suffix)] *)
Definition endsWith (s suffix : string) : bool :=
  let n := String.length s in
  let k := String.length suffix in
  if (k <=? n)%nat then String.eqb (String.substring (n - k) k s) suffix
  else false.

(** A string is falsy exactly when it is empty. *)
Definition truthy_string (s : string) : bool := negb (String.eqb s "").

(** [a || b] on strings. *)
Definition or_string (a b : string) : string :=
  if truthy_string a then a else b.

(** The values [JSON.parse] can produce. *)
#[warnings="-register-all"]
Inductive json : Type :=
| JNull
| JBool (b : bool)
| JNum (z : Z)
| JStr (s : string)
| JArr (items : list json)
| JObj (fields : list (string * json)).

(** Truthiness ([!v] is its negation). *)
Definition truthy (v : json) : bool :=
  match v with
  | JNull => false
  | JBool b => b
  | JNum z => negb (z =? 0)
  | JStr s => truthy_string s
  | JArr _ | JObj _ => true
  end.

Fixpoint assoc (k : string) (fs : list (string * json)) : option json :=
  match fs with
  | [] => None
  | (k', v) :: rest => if String.eqb k k' then Some v else assoc k rest
  end.

(** [v?.k] for one of the keys the component reads ([state], [meta],
    [savedAt]): [undefined] ([None]) unless [v] is an object with that
    own property. *)
Definition get (k : string) (v : option json) : option json :=
  match v with
  | Some (JObj fs) => assoc k fs
  | _ => None
  end.

(** Truthiness of a possibly [undefined] value. *)
Definition truthy_opt (v : option json) : bool :=
  match v with
  | Some j => truthy j
  | None => false
  end.

(** What a call can do: return a value or throw an [Error] with a
    message. *)
Inductive outcome (A : Type) : Type :=
| Returned (a : A)
| Thrown (message : string).
Arguments Returned {A} a.
Arguments Thrown {A} message.

End JS.
Import JS.

(* ===================================================================== *)
(** * Constants of the module *)
(* ===================================================================== *)

Definition W : Z := 256.
Definition H : Z := 240.

(** "If colors look weird, flip this to false." *)
Definition USE_ABGR : bool := true.

Definition SAVE_VERSION : N := 1.
Definition AUTOSAVE_EVERY_MS : Z := 20000.
Definition LS_PREFIX : string := "retro-arcade-web:nes".

(** [KEYMAP]: key code to button name (player 1). *)
Definition KEYMAP (code : string) : option string :=
  if String.eqb code "KeyW" then Some "UP"
  else if String.eqb code "KeyS" then Some "DOWN"
  else if String.eqb code "KeyA" then Some "LEFT"
  else if String.eqb code "KeyD" then Some "RIGHT"
  else if String.eqb code "KeyJ" then Some "A"
  else if String.eqb code "KeyK" then Some "B"
  else if String.eqb code "Enter" then Some "START"
  else if String.eqb code "Space" then Some "SELECT"
  else None.

(* ===================================================================== *)
(** * [djb2Hash] *)
(* ===================================================================== *)

(** One turn of the loop: [h = ((h << 5) + h) ^ str.charCodeAt(i)].  The
    addition is an addition of numbers; [<<] and [^] work on 32 bits. *)
Definition djb2_step (h : Z) (c : ascii) : Z :=
  bxor (shl h 5 + h) (charCode c).

Fixpoint djb2_loop (h : Z) (str : string) : Z :=
  match str with
  | EmptyString => h
  | String c rest => djb2_loop (djb2_step h c) rest
  end.

(** [return (h >>> 0).toString(16)] *)
Definition djb2Hash (str : string) : string :=
  hex (Z.to_N (shr (djb2_loop 5381 str) 0)).

(** The hash as it is usually described: on unsigned 32-bit numbers,
    [h * 33] xor the character code, from 5381. *)
Fixpoint djb2_unsigned (u : Z) (str : string) : Z :=
  match str with
  | EmptyString => u
  | String c rest =>
      djb2_unsigned (Z.lxor ((33 * u) mod 2 ^ 32) (charCode c)) rest
  end.

(* ===================================================================== *)
(** * Video: the [onFrame] callback *)
(* ===================================================================== *)

(** The body of the [for] loop of [onFrame], for pixel [i] with packed
    value [p], on the image data [data]. *)
Definition put_pixel (abgr : bool) (i : nat) (p : Z) (data : list Z) : list Z :=
  let idx := (i * 4)%nat in
  let data :=
    if abgr then
      let data := <[(idx + 0)%nat := band p 255]> data in
      let data := <[(idx + 1)%nat := band (sar p 8) 255]> data in
      <[(idx + 2)%nat := band (sar p 16) 255]> data
    else
      let data := <[(idx + 0)%nat := band (sar p 16) 255]> data in
      let data := <[(idx + 1)%nat := band (sar p 8) 255]> data in
      <[(idx + 2)%nat := band p 255]> data in
  <[(idx + 3)%nat := 255]> data.

(** [for (let i = 0; i < frameBuffer.length; i++)], from index [i]. *)
Fixpoint paint_from (abgr : bool) (i : nat) (frameBuffer : list Z)
    (data : list Z) : list Z :=
  match frameBuffer with
  | [] => data
  | p :: rest => paint_from abgr (S i) rest (put_pixel abgr i p data)
  end.

Definition paint (abgr : bool) (frameBuffer data : list Z) : list Z :=
  paint_from abgr 0 frameBuffer data.

(** What the specification asks of the video sink, in its own words: byte
    [k] of a packed pixel, the four bytes of an output pixel for each of
    the two channel orders, and the image of a whole frame buffer. *)
Definition channel (k : Z) (p : Z) : Z := (p / 2 ^ (8 * k)) mod 256.

Definition rgba (abgr : bool) (p : Z) : list Z :=
  if abgr then [channel 0 p; channel 1 p; channel 2 p; 255]
  else [channel 2 p; channel 1 p; channel 0 p; 255].

Definition image (abgr : bool) (frameBuffer : list Z) : list Z :=
  flat_map (rgba abgr) frameBuffer.

(* ===================================================================== *)
(** * Audio: the sample queue *)
(* ===================================================================== *)

Section AudioQueue.

(** The type of a sample (a JavaScript number) and the sample [0]. *)
Context {Sample : Type} (zero : Sample).

(** [const max = 44100 * 2] *)
Definition max : Z := 44100 * 2.

Definition qlen (q : list Sample) : Z := Z.of_nat (length q).

(** [onAudioSample(l, r)]: [q.push(l, r)], then
    [if (q.length > max) q.splice(0, q.length - max)]. *)
Definition onAudioSample (l r : Sample) (q : list Sample) : list Sample :=
  let q := (q ++ [l; r])%list in
  if max <? qlen q then drop (Z.to_nat (qlen q - max)) q else q.

(** One turn of the loop of [onaudioprocess]: the pair written to
    [outL[i]], [outR[i]] and the queue afterwards. *)
Definition pull1 (q : list Sample) : (Sample * Sample) * list Sample :=
  match q with
  | l :: r :: rest => ((l, r), rest)
  | _ => ((zero, zero), q)
  end.

(** [onaudioprocess] for an output buffer of [n] frames: the pairs written
    and the queue afterwards. *)
Fixpoint onaudioprocess (n : nat) (q : list Sample)
    : list (Sample * Sample) * list Sample :=
  match n with
  | O => ([], q)
  | S n' =>
      let '(lr, q1) := pull1 q in
      let '(out, q2) := onaudioprocess n' q1 in
      (lr :: out, q2)
  end.

(** The operations that touch the queue: the engine's sample callback, the
    audio device's callback, and the assignments [audioQRef.current = []]
    in [loadRom], [loadStateFromLocalStorage], [reset] and on unmount. *)
Inductive queue_op : Type :=
| Enqueue (l r : Sample)
| Pull (frames : nat)
| Clear.

Definition queue_step (q : list Sample) (op : queue_op) : list Sample :=
  match op with
  | Enqueue l r => onAudioSample l r q
  | Pull n => snd (onaudioprocess n q)
  | Clear => []
  end.

(** The queue after each operation of a sequence, in order. *)
Fixpoint queue_trace (q : list Sample) (ops : list queue_op)
    : list (list Sample) :=
  match ops with
  | [] => []
  | op :: rest => let q' := queue_step q op in q' :: queue_trace q' rest
  end.

(** A sequence of enqueues, one per sample pair. *)
Definition enqueues (pairs : list (Sample * Sample)) : list queue_op :=
  map (fun lr => Enqueue (fst lr) (snd lr)) pairs.

(** Left and right samples alternate in the queue as long as its length
    is even. *)
Definition even_queue (q : list Sample) : Prop := Z.even (qlen q) = true.

End AudioQueue.

(* ===================================================================== *)
(** * The emulation engine: what the component uses of [jsnes] *)
(* ===================================================================== *)

Section Engine.

Context {Sample : Type}.

(** The callbacks an engine invokes while it runs a frame. *)
Inductive callback : Type :=
| OnFrame (frameBuffer : list Z)
| OnAudioSample (l r : Sample).

(** A method call on an engine instance whose internal state has type
    [Machine]: it returns or throws, and leaves the instance in a new
    state either way. *)
Definition call (Machine A : Type) : Type := Machine -> outcome A * Machine.

(** A controller object: [c.buttonDown(btn)], [c.buttonUp(btn)]; a member
    that is not a function is [None]. *)
Record controller (Machine : Type) : Type := {
  buttonDown : option (Z -> call Machine unit);
  buttonUp : option (Z -> call Machine unit)
}.

(** A build of [jsnes].  Every method shape the component probes for is
    optional; [loadROM] and [frame] are called without a probe. *)
Record jsnes (Machine : Type) : Type := {
  (** [new jsnes.NES({ onFrame, onAudioSample })] *)
  new_NES : Machine;
  (** [jsnes.Controller.BUTTON_*] *)
  BUTTON_A : Z;
  BUTTON_B : Z;
  BUTTON_SELECT : Z;
  BUTTON_START : Z;
  BUTTON_UP : Z;
  BUTTON_DOWN : Z;
  BUTTON_LEFT : Z;
  BUTTON_RIGHT : Z;
  (** [n.controllers?.[0]] and [n.controller1], when truthy *)
  controllers_0 : option (controller Machine);
  controller1 : option (controller Machine);
  (** [n.buttonDown(player, btn)], [n.buttonUp(player, btn)] *)
  nes_buttonDown : option (Z -> Z -> call Machine unit);
  nes_buttonUp : option (Z -> Z -> call Machine unit);
  (** snapshot export *)
  toJSON : option (call Machine json);
  serialize : option (call Machine json);
  saveState : option (call Machine json);
  getState : option (call Machine json);
  (** snapshot import *)
  fromJSON : option (json -> call Machine unit);
  deserialize : option (json -> call Machine unit);
  loadState : option (json -> call Machine unit);
  setState : option (json -> call Machine unit);
  (** [n.loadROM(bin)]; the argument is a binary string, or [null] *)
  loadROM : option string -> call Machine unit;
  (** [n.frame()]: the callbacks invoked, in order, with the result *)
  frame : Machine -> list callback * outcome unit * Machine
}.

End Engine.

Arguments callback : clear implicits.
Arguments jsnes : clear implicits.
Arguments buttonDown {Machine} _.
Arguments buttonUp {Machine} _.
Arguments new_NES {Sample Machine} _.
Arguments BUTTON_A {Sample Machine} _.
Arguments BUTTON_B {Sample Machine} _.
Arguments BUTTON_SELECT {Sample Machine} _.
Arguments BUTTON_START {Sample Machine} _.
Arguments BUTTON_UP {Sample Machine} _.
Arguments BUTTON_DOWN {Sample Machine} _.
Arguments BUTTON_LEFT {Sample Machine} _.
Arguments BUTTON_RIGHT {Sample Machine} _.
Arguments controllers_0 {Sample Machine} _.
Arguments controller1 {Sample Machine} _.
Arguments nes_buttonDown {Sample Machine} _.
Arguments nes_buttonUp {Sample Machine} _.
Arguments toJSON {Sample Machine} _.
Arguments serialize {Sample Machine} _.
Arguments saveState {Sample Machine} _.
Arguments getState {Sample Machine} _.
Arguments fromJSON {Sample Machine} _.
Arguments deserialize {Sample Machine} _.
Arguments loadState {Sample Machine} _.
Arguments setState {Sample Machine} _.
Arguments loadROM {Sample Machine} _.
Arguments frame {Sample Machine} _.

(** The JavaScript built-ins the save-state code calls. *)
Record host : Type := {
  (** [JSON.stringify(v)] *)
  JSON_stringify : json -> string;
  (** [JSON.parse(raw)], which throws a [SyntaxError] on a malformed text *)
  JSON_parse : string -> outcome json;
  (** [new Date(v).toLocaleString()] *)
  toLocaleString : json -> string
}.

(** The file object given to [loadRom]: [file.name] and the bytes of
    [await file.arrayBuffer()]. *)
Record file : Type := {
  name : string;
  bytes : list Byte.byte
}.

(** An [AudioContext] is suspended, running or closed. *)
Inductive audio_state : Type := Suspended | Live | Closed.

(** The [ScriptProcessorNode] created by [ensureAudio]: which object it is,
    its buffer size, and how many times [connect] was called on it. *)
Record audio_node : Type := {
  node_id : positive;
  bufferSize : nat;
  connections : nat
}.

(** The node plays while it is connected to the destination. *)
Definition connected (node : audio_node) : bool :=
  negb (Nat.eqb (connections node) 0).

(** [node.connect(ctx.destination)] *)
Definition connect (node : audio_node) : audio_node :=
  {| node_id := node_id node;
     bufferSize := bufferSize node;
     connections := S (connections node) |}.

(* ===================================================================== *)
(** * The state of the component *)
(* ===================================================================== *)

Section Player.

Context {Sample Machine : Type}.

(** The refs, the React state cells, and the part of the browser the
    component reads and writes. *)
#[projections(primitive)]
Record player : Type := mk {
  (** image data of the W x H canvas, [None] when [canvasRef.current] is
      null *)
  canvasRef : option (list Z);
  rafRef : option positive;
  runningRef : bool;
  nesRef : option Machine;
  romBinRef : option string;
  romNameRef : string;
  romKeyRef : option string;
  audioCtxRef : option audio_state;
  audioNodeRef : option audio_node;
  audioQRef : list Sample;
  autosaveTimerRef : option positive;
  (** React state *)
  status : string;
  loadedName : string;
  hasSave : bool;
  lastSavedAt : option json;
  (** browser *)
  localStorage : gmap string string;
  (** [window.AudioContext || window.webkitAudioContext]: absent, or the
      state in which a new context starts *)
  window_AudioContext : option audio_state;
  (** the next handle [requestAnimationFrame] or [setInterval] returns *)
  next_handle : positive;
  (** the identity the next [ScriptProcessorNode] gets: every call of
      [createScriptProcessor] makes a new object *)
  next_node : positive;
  (** the files whose [file.arrayBuffer()] promise is still pending: each
      belongs to a call of [loadRom] that waits at its [await] *)
  pending_reads : list file
}.

Definition set_canvasRef (v : option (list Z)) (p : player) : player :=
  let '(mk _ a2 a3 a4 a5 a6 a7 a8 a9 a10 a11 a12 a13 a14 a15 a16 a17 a18 a19 a20) := p in
  mk v a2 a3 a4 a5 a6 a7 a8 a9 a10 a11 a12 a13 a14 a15 a16 a17 a18 a19 a20.
Definition set_rafRef (v : option positive) (p : player) : player :=
  let '(mk a1 _ a3 a4 a5 a6 a7 a8 a9 a10 a11 a12 a13 a14 a15 a16 a17 a18 a19 a20) := p in
  mk a1 v a3 a4 a5 a6 a7 a8 a9 a10 a11 a12 a13 a14 a15 a16 a17 a18 a19 a20.
Definition set_runningRef (v : bool) (p : player) : player :=
  let '(mk a1 a2 _ a4 a5 a6 a7 a8 a9 a10 a11 a12 a13 a14 a15 a16 a17 a18 a19 a20) := p in
  mk a1 a2 v a4 a5 a6 a7 a8 a9 a10 a11 a12 a13 a14 a15 a16 a17 a18 a19 a20.
Definition set_nesRef (v : option Machine) (p : player) : player :=
  let '(mk a1 a2 a3 _ a5 a6 a7 a8 a9 a10 a11 a12 a13 a14 a15 a16 a17 a18 a19 a20) := p in
  mk a1 a2 a3 v a5 a6 a7 a8 a9 a10 a11 a12 a13 a14 a15 a16 a17 a18 a19 a20.
Definition set_romBinRef (v : option string) (p : player) : player :=
  let '(mk a1 a2 a3 a4 _ a6 a7 a8 a9 a10 a11 a12 a13 a14 a15 a16 a17 a18 a19 a20) := p in
  mk a1 a2 a3 a4 v a6 a7 a8 a9 a10 a11 a12 a13 a14 a15 a16 a17 a18 a19 a20.
Definition set_romNameRef (v : string) (p : player) : player :=
  let '(mk a1 a2 a3 a4 a5 _ a7 a8 a9 a10 a11 a12 a13 a14 a15 a16 a17 a18 a19 a20) := p in
  mk a1 a2 a3 a4 a5 v a7 a8 a9 a10 a11 a12 a13 a14 a15 a16 a17 a18 a19 a20.
Definition set_romKeyRef (v : option string) (p : player) : player :=
  let '(mk a1 a2 a3 a4 a5 a6 _ a8 a9 a10 a11 a12 a13 a14 a15 a16 a17 a18 a19 a20) := p in
  mk a1 a2 a3 a4 a5 a6 v a8 a9 a10 a11 a12 a13 a14 a15 a16 a17 a18 a19 a20.
Definition set_audioCtxRef (v : option audio_state) (p : player) : player :=
  let '(mk a1 a2 a3 a4 a5 a6 a7 _ a9 a10 a11 a12 a13 a14 a15 a16 a17 a18 a19 a20) := p in
  mk a1 a2 a3 a4 a5 a6 a7 v a9 a10 a11 a12 a13 a14 a15 a16 a17 a18 a19 a20.
Definition set_audioNodeRef (v : option audio_node) (p : player) : player :=
  let '(mk a1 a2 a3 a4 a5 a6 a7 a8 _ a10 a11 a12 a13 a14 a15 a16 a17 a18 a19 a20) := p in
  mk a1 a2 a3 a4 a5 a6 a7 a8 v a10 a11 a12 a13 a14 a15 a16 a17 a18 a19 a20.
Definition set_audioQRef (v : list Sample) (p : player) : player :=
  let '(mk a1 a2 a3 a4 a5 a6 a7 a8 a9 _ a11 a12 a13 a14 a15 a16 a17 a18 a19 a20) := p in
  mk a1 a2 a3 a4 a5 a6 a7 a8 a9 v a11 a12 a13 a14 a15 a16 a17 a18 a19 a20.
Definition set_autosaveTimerRef (v : option positive) (p : player) : player :=
  let '(mk a1 a2 a3 a4 a5 a6 a7 a8 a9 a10 _ a12 a13 a14 a15 a16 a17 a18 a19 a20) := p in
  mk a1 a2 a3 a4 a5 a6 a7 a8 a9 a10 v a12 a13 a14 a15 a16 a17 a18 a19 a20.
Definition setStatus (v : string) (p : player) : player :=
  let '(mk a1 a2 a3 a4 a5 a6 a7 a8 a9 a10 a11 _ a13 a14 a15 a16 a17 a18 a19 a20) := p in
  mk a1 a2 a3 a4 a5 a6 a7 a8 a9 a10 a11 v a13 a14 a15 a16 a17 a18 a19 a20.
Definition setLoadedName (v : string) (p : player) : player :=
  let '(mk a1 a2 a3 a4 a5 a6 a7 a8 a9 a10 a11 a12 _ a14 a15 a16 a17 a18 a19 a20) := p in
  mk a1 a2 a3 a4 a5 a6 a7 a8 a9 a10 a11 a12 v a14 a15 a16 a17 a18 a19 a20.
Definition setHasSave (v : bool) (p : player) : player :=
  let '(mk a1 a2 a3 a4 a5 a6 a7 a8 a9 a10 a11 a12 a13 _ a15 a16 a17 a18 a19 a20) := p in
  mk a1 a2 a3 a4 a5 a6 a7 a8 a9 a10 a11 a12 a13 v a15 a16 a17 a18 a19 a20.
Definition setLastSavedAt (v : option json) (p : player) : player :=
  let '(mk a1 a2 a3 a4 a5 a6 a7 a8 a9 a10 a11 a12 a13 a14 _ a16 a17 a18 a19 a20) := p in
  mk a1 a2 a3 a4 a5 a6 a7 a8 a9 a10 a11 a12 a13 a14 v a16 a17 a18 a19 a20.
Definition set_localStorage (v : gmap string string) (p : player) : player :=
  let '(mk a1 a2 a3 a4 a5 a6 a7 a8 a9 a10 a11 a12 a13 a14 a15 _ a17 a18 a19 a20) := p in
  mk a1 a2 a3 a4 a5 a6 a7 a8 a9 a10 a11 a12 a13 a14 a15 v a17 a18 a19 a20.
Definition set_next_handle (v : positive) (p : player) : player :=
  let '(mk a1 a2 a3 a4 a5 a6 a7 a8 a9 a10 a11 a12 a13 a14 a15 a16 a17 _ a19 a20) := p in
  mk a1 a2 a3 a4 a5 a6 a7 a8 a9 a10 a11 a12 a13 a14 a15 a16 a17 v a19 a20.
Definition set_next_node (v : positive) (p : player) : player :=
  let '(mk a1 a2 a3 a4 a5 a6 a7 a8 a9 a10 a11 a12 a13 a14 a15 a16 a17 a18 _ a20) := p in
  mk a1 a2 a3 a4 a5 a6 a7 a8 a9 a10 a11 a12 a13 a14 a15 a16 a17 a18 v a20.
Definition set_pending_reads (v : list file) (p : player) : player :=
  let '(mk a1 a2 a3 a4 a5 a6 a7 a8 a9 a10 a11 a12 a13 a14 a15 a16 a17 a18 a19 _) := p in
  mk a1 a2 a3 a4 a5 a6 a7 a8 a9 a10 a11 a12 a13 a14 a15 a16 a17 a18 a19 v.

End Player.

Arguments player : clear implicits.

(* ===================================================================== *)
(** * The functions of the component *)
(* ===================================================================== *)

Section Operations.

Context {Sample Machine : Type}.
Context (zero : Sample) (J : jsnes Sample Machine) (B : host).

Local Abbreviation player := (player Sample Machine).

(** [String(e?.message || e)] for a thrown [Error]. *)
Definition err_text (message : string) : string := or_string message "Error".

(** A value read from [localStorage], kept when it is truthy. *)
Definition truthy_raw (raw : option string) : option string :=
  match raw with
  | Some s => if truthy_string s then Some s else None
  | None => None
  end.

(** ** Audio *)

(** [ctx.resume()] *)
Definition resume (s : audio_state) : audio_state :=
  match s with
  | Suspended => Live
  | Live => Live
  | Closed => Closed
  end.

Definition ensureAudio (p : player) : player :=
  match audioCtxRef p with
  | Some ctx => set_audioCtxRef (Some (resume ctx)) p
  | None =>
      match window_AudioContext p with
      | None => setStatus "AudioContext not supported in this browser." p
      | Some ctx =>
          let p := set_audioCtxRef (Some ctx) p in
          let bufferSize := 1024%nat in
          let node := {| node_id := next_node p;
                         bufferSize := bufferSize;
                         connections := 0 |} in
          let p := set_next_node (Pos.succ (next_node p)) p in
          let node := connect node in
          set_audioNodeRef (Some node) p
      end
  end.

(** The audio device calls [node.onaudioprocess]: the block it plays and
    the state afterwards. *)
Definition audio_tick (p : player) : list (Sample * Sample) * player :=
  match audioNodeRef p with
  | Some node =>
      if connected node then
        let '(out, q) := onaudioprocess zero (bufferSize node) (audioQRef p) in
        (out, set_audioQRef q p)
      else ([], p)
  | None => ([], p)
  end.

(** ** [createNES] and its two callbacks *)

Definition onFrame (frameBuffer : list Z) (p : player) : player :=
  match canvasRef p with
  | None => p
  | Some data => set_canvasRef (Some (paint USE_ABGR frameBuffer data)) p
  end.

Definition on_callback (p : player) (c : callback Sample) : player :=
  match c with
  | OnFrame frameBuffer => onFrame frameBuffer p
  | OnAudioSample l r => set_audioQRef (onAudioSample l r (audioQRef p)) p
  end.

Definition run_callbacks (cs : list (callback Sample)) (p : player) : player :=
  fold_left on_callback cs p.

Definition createNES : Machine := new_NES J.

(** ** Save states *)

Definition getSaveStorageKey (p : player) : option string :=
  match romKeyRef p with
  | Some k =>
      if truthy_string k
      then Some (LS_PREFIX ++ ":savestate:v" ++ dec SAVE_VERSION ++ ":" ++ k)%string
      else None
  | None => None
  end.

(** [v || null] *)
Definition or_null (v : option json) : option json :=
  if truthy_opt v then v else None.

Definition savedAt_of (payload : json) : option json :=
  get "savedAt" (get "meta" (Some payload)).

Definition refreshSaveIndicators (p : player) : player :=
  match getSaveStorageKey p with
  | None => setLastSavedAt None (setHasSave false p)
  | Some key =>
      match truthy_raw (localStorage p !! key) with
      | None => setLastSavedAt None (setHasSave false p)
      | Some raw =>
          match JSON_parse B raw with
          | Returned parsed =>
              setLastSavedAt (or_null (savedAt_of parsed)) (setHasSave true p)
          | Thrown _ => setLastSavedAt None (setHasSave false p)
          end
      end
  end.

(** Run a probed method on the instance. *)
Definition invoke {A : Type} (f : call Machine A) (m : Machine)
    : outcome A * option Machine :=
  let '(o, m') := f m in (o, Some m').

Definition exportState (nesInstance : option Machine)
    : outcome json * option Machine :=
  match nesInstance with
  | None => (Returned JNull, None)
  | Some m =>
      match toJSON J with
      | Some f => invoke f m
      | None =>
      match serialize J with
      | Some f => invoke f m
      | None =>
      match saveState J with
      | Some f => invoke f m
      | None =>
      match getState J with
      | Some f => invoke f m
      | None =>
          (Thrown "This jsnes build does not expose a save-state API.", Some m)
      end end end end
  end.

Definition importState (nesInstance : option Machine) (state : json)
    : outcome unit * option Machine :=
  match nesInstance with
  | None => (Returned tt, None)
  | Some m =>
      match fromJSON J with
      | Some f => invoke (f state) m
      | None =>
      match deserialize J with
      | Some f => invoke (f state) m
      | None =>
      match loadState J with
      | Some f => invoke (f state) m
      | None =>
      match setState J with
      | Some f => invoke (f state) m
      | None =>
          (Thrown "This jsnes build does not expose a load-state API.", Some m)
      end end end end
  end.

(** The envelope built by [saveStateToLocalStorage]. *)
Definition envelope (p : player) (romKey savedAt : string) (state : json) : json :=
  JObj [("meta", JObj [("version", JNum (Z.of_N SAVE_VERSION));
                       ("romName", JStr (or_string (romNameRef p) (loadedName p)));
                       ("romKey", JStr romKey);
                       ("savedAt", JStr savedAt)]);
        ("state", state)].

(** [saveStateToLocalStorage({ silent })]; [now] is the value of
    [nowIso()].  [localStorage.setItem] is taken to succeed. *)
Definition saveStateToLocalStorage (silent : bool) (now : string) (p : player)
    : bool * player :=
  match getSaveStorageKey p with
  | None =>
      (false, if silent then p else setStatus "Load a ROM before saving." p)
  | Some key =>
      match nesRef p with
      | None => (false, p)
      | Some m =>
          match exportState (Some m) with
          | (Returned state, n) =>
              let payload := envelope p (default "" (romKeyRef p)) now state in
              let p := set_nesRef n p in
              let p := set_localStorage
                         (<[key := JSON_stringify B payload]> (localStorage p)) p in
              let p := setHasSave true p in
              let p := setLastSavedAt (Some (JStr now)) p in
              let p := if silent then p
                       else setStatus ("Saved state ("
                                       ++ toLocaleString B (JStr now) ++ ")") p in
              (true, p)
          | (Thrown e, n) =>
              let p := set_nesRef n p in
              (false, if silent then p
                      else setStatus ("Save failed: " ++ err_text e) p)
          end
      end
  end.

Definition requestAnimationFrame (p : player) : player :=
  set_next_handle (Pos.succ (next_handle p)) (set_rafRef (Some (next_handle p)) p).

(** [stop]: also the handler of the Pause button. *)
Definition stop (p : player) : player :=
  set_rafRef None (set_runningRef false p).

Definition drawOneFrame (p : player) : player :=
  match nesRef p with
  | None => p
  | Some m =>
      let '(cs, _, m') := frame J m in
      run_callbacks cs (set_nesRef (Some m') p)
  end.

(** [loadStateFromLocalStorage]; [now] is the value of [Date.now()]. *)
Definition loadStateFromLocalStorage (now : Z) (p : player) : player :=
  match getSaveStorageKey p with
  | None => setStatus "Load a ROM before loading a save." p
  | Some key =>
      match truthy_raw (localStorage p !! key) with
      | None => setStatus "No save state found for this ROM." p
      | Some raw =>
          match JSON_parse B raw with
          | Thrown e => setStatus ("Load failed: " ++ err_text e) p
          | Returned payload =>
              match or_null (get "state" (Some payload)) with
              | None => setStatus "Save state data is invalid." p
              | Some state =>
                  let p := stop p in
                  match loadROM J (romBinRef p) createNES with
                  | (Thrown e, _) => setStatus ("Load failed: " ++ err_text e) p
                  | (Returned _, fresh) =>
                      match importState (Some fresh) state with
                      | (Thrown e, _) =>
                          setStatus ("Load failed: " ++ err_text e) p
                      | (Returned _, fresh) =>
                          let p := set_nesRef fresh p in
                          let p := set_audioQRef [] p in
                          let at_ := default (JNum now) (or_null (savedAt_of payload)) in
                          let p := setStatus ("Loaded save ("
                                              ++ toLocaleString B at_ ++ ")") p in
                          drawOneFrame p
                      end
                  end
              end
          end
      end
  end.

Definition deleteStateFromLocalStorage (p : player) : player :=
  match getSaveStorageKey p with
  | None => p
  | Some key =>
      let p := set_localStorage (delete key (localStorage p)) p in
      let p := setHasSave false p in
      let p := setLastSavedAt None p in
      setStatus "Deleted save state for this ROM." p
  end.

Definition stopAutosaveTimer (p : player) : player :=
  match autosaveTimerRef p with
  | Some _ => set_autosaveTimerRef None p
  | None => p
  end.

Definition startAutosaveTimer (p : player) : player :=
  let p := stopAutosaveTimer p in
  set_next_handle (Pos.succ (next_handle p))
    (set_autosaveTimerRef (Some (next_handle p)) p).

Definition truthy_ostring (o : option string) : bool :=
  match o with
  | Some s => truthy_string s
  | None => false
  end.

(** The callback of the autosave interval, and of [beforeunload]. *)
Definition autosave (now : string) (p : player) : player :=
  if truthy_ostring (romBinRef p) && truthy_ostring (romKeyRef p)
  then snd (saveStateToLocalStorage true now p)
  else p.

(** ** Input *)

Definition buttonMap (key : string) : option Z :=
  if String.eqb key "A" then Some (BUTTON_A J)
  else if String.eqb key "B" then Some (BUTTON_B J)
  else if String.eqb key "SELECT" then Some (BUTTON_SELECT J)
  else if String.eqb key "START" then Some (BUTTON_START J)
  else if String.eqb key "UP" then Some (BUTTON_UP J)
  else if String.eqb key "DOWN" then Some (BUTTON_DOWN J)
  else if String.eqb key "LEFT" then Some (BUTTON_LEFT J)
  else if String.eqb key "RIGHT" then Some (BUTTON_RIGHT J)
  else None.

(** One of the closures of [attempts]: it answers [true] when its shape
    handled the event, [false] when the shape is absent, or throws. *)
Definition attempt : Type := call Machine bool.

(** A call that is followed by [return true]. *)
Definition then_true (f : call Machine unit) : attempt :=
  fun m => let '(o, m') := f m in
           (match o with
            | Returned _ => Returned true
            | Thrown e => Thrown e
            end, m').

(** Calling a member that is not a function throws a [TypeError]. *)
Definition call_member (f : option (Z -> call Machine unit)) (btn : Z)
    : call Machine unit :=
  match f with
  | Some g => g btn
  | None => fun m => (Thrown "TypeError: not a function", m)
  end.

(** The first two closures: [const c = ...; if (!c) return false;
    if (isDown) c.buttonDown(btn); else c.buttonUp(btn); return true]. *)
Definition via_controller (c : option (controller Machine)) (isDown : bool)
    (btn : Z) : attempt :=
  match c with
  | None => fun m => (Returned false, m)
  | Some c =>
      then_true (call_member (if isDown then buttonDown c else buttonUp c) btn)
  end.

(** The last two closures: [n.buttonDown(player, btn)] or
    [n.buttonUp(player, btn)], when both are functions. *)
Definition via_nes (player : Z) (isDown : bool) (btn : Z) : attempt :=
  match nes_buttonDown J, nes_buttonUp J with
  | Some down, Some up => then_true ((if isDown then down else up) player btn)
  | _, _ => fun m => (Returned false, m)
  end.

Definition attempts (isDown : bool) (btn : Z) : list attempt :=
  [via_controller (controllers_0 J) isDown btn;
   via_controller (controller1 J) isDown btn;
   via_nes 0 isDown btn;
   via_nes 1 isDown btn].

(** [for (const fn of attempts) { try { if (fn()) return; } catch {} }]:
    whether an attempt handled the event, and the instance afterwards. *)
Fixpoint run_attempts (fns : list attempt) (m : Machine) : bool * Machine :=
  match fns with
  | [] => (false, m)
  | fn :: rest =>
      match fn m with
      | (Returned true, m') => (true, m')
      | (Returned false, m') => run_attempts rest m'
      | (Thrown _, m') => run_attempts rest m'
      end
  end.

(** [press(key, isDown)].  It has no failure path: it returns
    [undefined] whatever the attempts did. *)
Definition press (key : string) (isDown : bool) (p : player)
    : outcome unit * player :=
  match nesRef p with
  | None => (Returned tt, p)
  | Some n =>
      match buttonMap key with
      | None => (Returned tt, p)
      | Some btn =>
          (Returned tt,
           set_nesRef (Some (snd (run_attempts (attempts isDown btn) n))) p)
      end
  end.

(** The [keydown] and [keyup] listeners. *)
Definition down (code : string) (p : player) : player :=
  match KEYMAP code with
  | None => p
  | Some k => snd (press k true p)
  end.

Definition up (code : string) (p : player) : player :=
  match KEYMAP code with
  | None => p
  | Some k => snd (press k false p)
  end.

(** ** Session control *)

(** [bin]: one character per byte of the file. *)
Definition bin_of (f : file) : string := string_of_list_byte (bytes f).

(** The ROM key built in [loadRom]. *)
Definition romKey_of (f : file) : string :=
  let bin := bin_of f in
  (name f ++ ":" ++ dec (strlen bin) ++ ":"
   ++ djb2Hash (slice0 (Z.to_nat 20000) bin))%string.

Definition accepts (f : file) : bool := endsWith (toLowerCase (name f)) ".nes".

(** [loadRom] up to [await file.arrayBuffer()]. *)
Definition loadRom_begin (p : player) : player :=
  setLoadedName "" (setStatus "Loading ROM…" p).

(** [loadRom] from the [await] on. *)
Definition loadRom_resume (f : file) (p : player) : player :=
  let bin := bin_of f in
  let p := set_romBinRef (Some bin) p in
  let p := set_romNameRef (name f) p in
  let p := set_romKeyRef (Some (romKey_of f)) p in
  match loadROM J (Some bin) createNES with
  | (Thrown e, n) =>
      setStatus ("Failed to load ROM: " ++ err_text e) (set_nesRef (Some n) p)
  | (Returned _, n) =>
      let p := set_nesRef (Some n) p in
      let p := setLoadedName (name f) p in
      let p := setStatus "Loaded. Click Play (audio starts on Play)." p in
      let p := set_audioQRef [] p in
      let p := startAutosaveTimer p in
      let p := stop p in
      let p := drawOneFrame p in
      let p := refreshSaveIndicators p in
      let has := match getSaveStorageKey p with
                 | Some key => truthy_ostring (localStorage p !! key)
                 | None => false
                 end in
      if has
      then setStatus "Save found for this ROM. Click “Load Save” to continue." p
      else p
  end.

(** [loadRom(file)], with nothing happening during the [await]. *)
Definition loadRom (f : option file) (p : player) : player :=
  match f with
  | None => p
  | Some f =>
      if accepts f then loadRom_resume f (loadRom_begin p)
      else setStatus "Please select a .nes ROM file." p
  end.

(** [loadRom(file)] as the browser runs it.  The call runs up to the
    [await] and leaves the read of the file pending; the handler returns
    and other events are served. *)
Definition loadRom_start (f : option file) (p : player) : player :=
  match f with
  | None => p
  | Some f =>
      if accepts f
      then set_pending_reads (pending_reads p ++ [f])%list (loadRom_begin p)
      else setStatus "Please select a .nes ROM file." p
  end.

(** The [i]-th pending read resolves, and its call of [loadRom] goes on
    from the [await], in the state the events in between have left.  A
    read that fails, or never ends, stays pending: its call has no
    further effect on the component. *)
Definition loadRom_settle (i : nat) (p : player) : player :=
  match pending_reads p !! i with
  | None => p
  | Some f =>
      loadRom_resume f (set_pending_reads (delete i (pending_reads p)) p)
  end.

(** [loop], called by the browser at a display refresh. *)
Definition loop (p : player) : outcome unit * player :=
  if negb (runningRef p) then (Returned tt, p)
  else
    match nesRef p with
    | None => (Returned tt, requestAnimationFrame p)
    | Some m =>
        let '(cs, o, m') := frame J m in
        let p := run_callbacks cs (set_nesRef (Some m') p) in
        match o with
        | Returned _ => (Returned tt, requestAnimationFrame p)
        | Thrown e => (Thrown e, p)
        end
    end.

Definition play (p : player) : player :=
  if negb (truthy_string (loadedName p)) then setStatus "Load a ROM first." p
  else
    let p := ensureAudio p in
    if runningRef p then p
    else
      let p := set_runningRef true p in
      let p := setStatus "Playing… (Press Enter = Start)" p in
      requestAnimationFrame p.

(** [reset]; the call of [loadROM] is not inside a [try]. *)
Definition reset (p : player) : outcome unit * player :=
  if negb (truthy_ostring (romBinRef p))
  then (Returned tt, setStatus "No ROM loaded to reset." p)
  else
    let p := stop p in
    let p := set_nesRef (Some createNES) p in
    let p := set_audioQRef [] p in
    match loadROM J (romBinRef p) createNES with
    | (Thrown e, n) => (Thrown e, set_nesRef (Some n) p)
    | (Returned _, n) =>
        let p := set_nesRef (Some n) p in
        let p := setLoadedName (or_string (romNameRef p) (loadedName p)) p in
        let p := setStatus "Reset complete. Click Play to start fresh." p in
        (Returned tt, drawOneFrame p)
    end.

(** ** Mounting *)

(** The canvas after [fillRect(0, 0, W, H)]: opaque black. *)
Definition black : list Z :=
  concat (repeat [0; 0; 0; 255] (Z.to_nat (W * H))).

(** The component after its first render and its mount effect, in a
    browser with storage [store] and audio facility [audio]. *)
Definition mounted (store : gmap string string) (audio : option audio_state)
    : player :=
  {| canvasRef := Some black;
     rafRef := None;
     runningRef := false;
     nesRef := Some createNES;
     romBinRef := None;
     romNameRef := "";
     romKeyRef := None;
     audioCtxRef := None;
     audioNodeRef := None;
     audioQRef := [];
     autosaveTimerRef := None;
     status := "Upload a .nes ROM to start.";
     loadedName := "";
     hasSave := false;
     lastSavedAt := None;
     localStorage := store;
     window_AudioContext := audio;
     next_handle := 1%positive;
     next_node := 1%positive;
     pending_reads := [] |}.

(** The cleanup of the mount effect. *)
Definition unmount (p : player) : player :=
  let p := stop p in
  let p := stopAutosaveTimer p in
  let p := set_audioNodeRef None p in
  let p := set_audioCtxRef None p in
  set_audioQRef [] p.

(** ** Derived notions used to state the properties *)

(** The run state of the specification, read off the component: there is
    no ROM while [loadedName] is empty, the loop runs while [runningRef]
    is set.  The component keeps nothing that tells a paused session from
    a freshly loaded one; [Loaded] stands for both. *)
Inductive run_state : Type := Idle | Loaded | Running.

Definition run_state_of (p : player) : run_state :=
  if negb (truthy_string (loadedName p)) then Idle
  else if runningRef p then Running
  else Loaded.

(** The callbacks of [n] successive calls of [frame], one list per
    call, from the instance [m]. *)
Fixpoint next_frames (n : nat) (m : Machine) : list (list (callback Sample)) :=
  match n with
  | O => []
  | S n' => let '(cs, _, m') := frame J m in cs :: next_frames n' m'
  end.

(** The probing rule of the specification, in its own words: of a list
    of candidate method shapes in priority order, the first one that
    exists. *)
Fixpoint first_present {A : Type} (candidates : list (option A)) : option A :=
  match candidates with
  | [] => None
  | Some shape :: _ => Some shape
  | None :: rest => first_present rest
  end.

(** The probing rule for button events, stated on its own: of a list of
    candidate calls in priority order, those that are absent or throw are
    passed over, and the first that returns is the one used.  The answer tells whether one was used, next to the
    instance as the calls left it. *)
Fixpoint first_success (candidates : list (option (call Machine unit)))
    (m : Machine) : bool * Machine :=
  match candidates with
  | [] => (false, m)
  | None :: rest => first_success rest m
  | Some f :: rest =>
      match f m with
      | (Returned _, m') => (true, m')
      | (Thrown _, m') => first_success rest m'
      end
  end.

(** An attempt declines on an instance when it answers [false] or throws,
    and leaves the instance as it was. *)
Definition declines (m : Machine) (fn : attempt) : Prop :=
  fn m = (Returned false, m) \/ exists e, fn m = (Thrown e, m).

(** What the callbacks of a frame do to the canvas and to the sample
    queue, each taken alone. *)
Definition canvas_after (cs : list (callback Sample)) (canvas : option (list Z))
    : option (list Z) :=
  fold_left (fun canvas c =>
               match c with
               | OnFrame fb => option_map (paint USE_ABGR fb) canvas
               | OnAudioSample _ _ => canvas
               end) cs canvas.

Definition queue_after (cs : list (callback Sample)) (q : list Sample)
    : list Sample :=
  fold_left (fun q c =>
               match c with
               | OnFrame _ => q
               | OnAudioSample l r => onAudioSample l r q
               end) cs q.

(** The queue keeps left and right samples aligned. *)
Definition aligned (p : player) : Prop := even_queue (audioQRef p).

(** The frame buffers among the callbacks of a frame. *)
Definition frames_of (cs : list (callback Sample)) : list (list Z) :=
  omap (fun c => match c with
                 | OnFrame fb => Some fb
                 | OnAudioSample _ _ => None
                 end) cs.

End Operations.

(* ===================================================================== *)
(** * Sessions: the events a mounted component reacts to *)
(* ===================================================================== *)

Section Sessions.

Context {Sample Machine : Type}.
Context (zero : Sample) (J : jsnes Sample Machine) (B : host).

(** The clicks, the key events and the callbacks of the browser.  Each
    carries what the handler reads from its environment: the file
    chosen, the key code, the clock.  [loadRom] is asynchronous:
    [ChooseFile] is its call, up to the [await]; [FileRead i] is the
    moment the [i]-th pending read resolves.  Any events, other calls of
    [loadRom] among them, can fall in between, and reads can resolve in
    any order. *)
Inductive event : Type :=
| ChooseFile (f : option file)
| FileRead (i : nat)
| ClickPlay
| ClickPause
| ClickReset
| ClickSave (nowIso : string)
| ClickLoad (now : Z)
| ClickDelete
| KeyDown (code : string)
| KeyUp (code : string)
| DisplayRefresh
| AudioProcess
| AutosaveTimer (nowIso : string)
| BeforeUnload (nowIso : string).

Definition handle (p : player Sample Machine) (e : event) : player Sample Machine :=
  match e with
  | ChooseFile f => loadRom_start f p
  | FileRead i => loadRom_settle J B i p
  | ClickPlay => play p
  | ClickPause => stop p
  | ClickReset => snd (reset J p)
  | ClickSave t => snd (saveStateToLocalStorage J B false t p)
  | ClickLoad t => loadStateFromLocalStorage J B t p
  | ClickDelete => deleteStateFromLocalStorage p
  | KeyDown code => down J code p
  | KeyUp code => up J code p
  | DisplayRefresh => snd (loop J p)
  | AudioProcess => snd (audio_tick zero p)
  | AutosaveTimer t => autosave J B t p
  | BeforeUnload t => autosave J B t p
  end.

(** The component after a sequence of events. *)
Definition session (es : list event) (p : player Sample Machine)
    : player Sample Machine :=
  fold_left handle es p.

End Sessions.

(* ===================================================================== *)
(** * Conditions a session keeps *)
(* ===================================================================== *)

Section Conditions.

Context {Sample Machine : Type}.
Context (J : jsnes Sample Machine).

(** No refresh is pending while the loop flag is down. *)
Definition stopped_clean (p : player Sample Machine) : Prop :=
  runningRef p = false -> rafRef p = None.

(** The sample queue is within its cap. *)
Definition within_cap (p : player Sample Machine) : Prop :=
  qlen (audioQRef p) <= max.


(** Image data of the W x H canvas: four bytes per pixel, each a byte, the
    fourth of every pixel 255. *)
Definition opaque_image (data : list Z) : Prop :=
  Z.of_nat (length data) = 4 * (W * H)
  /\ Forall (fun b => 0 <= b < 256) data
  /\ forall k : nat, (4 * k + 3 < length data)%nat -> data !! (4 * k + 3)%nat = Some 255.

(** A canvas is there and its image data satisfies a condition. *)
Definition shows (C : list Z -> Prop) (canvas : option (list Z)) : Prop :=
  exists data, canvas = Some data /\ C data.

Definition canvas_opaque (p : player Sample Machine) : Prop :=
  shows opaque_image (canvasRef p).

(** The instance after [n] successive calls of [frame]. *)
Fixpoint machine_after (n : nat) (m : Machine) : Machine :=
  match n with
  | O => m
  | S n' => machine_after n' (snd (frame J m))
  end.

(** The next [n] calls of [frame] return, none throws. *)
Fixpoint frames_return (n : nat) (m : Machine) : Prop :=
  match n with
  | O => True
  | S n' =>
      snd (fst (frame J m)) = Returned tt /\ frames_return n' (snd (frame J m))
  end.

(** The pairs of samples a queue holds, oldest first. *)
Fixpoint pairs_of (q : list Sample) : list (Sample * Sample) :=
  match q with
  | l :: r :: rest => (l, r) :: pairs_of rest
  | _ => []
  end.

End Conditions.

(* ===================================================================== *)
(** * Concrete collaborators, for examples *)
(* ===================================================================== *)

(** A printer and a parser for the JSON texts of integers, strings without
    escapes, arrays and objects: a stand-in for the browser's [JSON]. *)
Module Text.

Definition dq : ascii := "034"%char.

Definition quote (s : string) : string := String dq (s ++ String dq "").

Definition print_Z (z : Z) : string :=
  if z <? 0 then "-" ++ dec (Z.to_N (- z)) else dec (Z.to_N z).

Fixpoint print (v : json) : string :=
  match v with
  | JNull => "null"
  | JBool true => "true"
  | JBool false => "false"
  | JNum z => print_Z z
  | JStr s => quote s
  | JArr items =>
      "[" ++ (fix go (l : list json) : string :=
                match l with
                | [] => ""
                | [x] => print x
                | x :: r => print x ++ "," ++ go r
                end) items ++ "]"
  | JObj fields =>
      "{" ++ (fix go (l : list (string * json)) : string :=
                match l with
                | [] => ""
                | [(k, x)] => quote k ++ ":" ++ print x
                | (k, x) :: r => quote k ++ ":" ++ print x ++ "," ++ go r
                end) fields ++ "}"
  end.

Fixpoint strip (prefix s : string) : option string :=
  match prefix, s with
  | EmptyString, _ => Some s
  | String a p', String b s' => if Ascii.eqb a b then strip p' s' else None
  | String _ _, EmptyString => None
  end.

Definition is_digit (c : ascii) : bool :=
  let n := N_of_ascii c in ((48 <=? n) && (n <=? 57))%N.

(** The digits at the head of [s], as a number, with the rest. *)
Fixpoint digits (acc : Z) (s : string) : Z * string :=
  match s with
  | String c r =>
      if is_digit c then digits (10 * acc + (Z.of_N (N_of_ascii c) - 48)) r
      else (acc, s)
  | EmptyString => (acc, s)
  end.

(** The characters up to the next double quote, with the rest. *)
Fixpoint until_quote (s : string) : option (string * string) :=
  match s with
  | EmptyString => None
  | String c r =>
      if Ascii.eqb c dq then Some ("", r)
      else match until_quote r with
           | Some (a, rest) => Some (String c a, rest)
           | None => None
           end
  end.

Fixpoint value (fuel : nat) (s : string) : option (json * string) :=
  match fuel with
  | O => None
  | S fuel =>
      match s with
      | EmptyString => None
      | String c r =>
          if Ascii.eqb c "n" then option_map (pair JNull) (strip "ull" r)
          else if Ascii.eqb c "t" then option_map (pair (JBool true)) (strip "rue" r)
          else if Ascii.eqb c "f" then option_map (pair (JBool false)) (strip "alse" r)
          else if Ascii.eqb c dq then
            match until_quote r with
            | Some (a, rest) => Some (JStr a, rest)
            | None => None
            end
          else if Ascii.eqb c "-" then
            match r with
            | String d _ =>
                if is_digit d then let '(z, rest) := digits 0 r in Some (JNum (- z), rest)
                else None
            | EmptyString => None
            end
          else if is_digit c then
            let '(z, rest) := digits 0 s in Some (JNum z, rest)
          else if Ascii.eqb c "[" then
            match r with
            | String "]" rest => Some (JArr [], rest)
            | _ => match items fuel r with
                   | Some (l, rest) => Some (JArr l, rest)
                   | None => None
                   end
            end
          else if Ascii.eqb c "{" then
            match r with
            | String "}" rest => Some (JObj [], rest)
            | _ => match members fuel r with
                   | Some (l, rest) => Some (JObj l, rest)
                   | None => None
                   end
            end
          else None
      end
  end
with items (fuel : nat) (s : string) : option (list json * string) :=
  match fuel with
  | O => None
  | S fuel =>
      match value fuel s with
      | Some (v, String "," rest) =>
          match items fuel rest with
          | Some (l, rest') => Some (v :: l, rest')
          | None => None
          end
      | Some (v, String "]" rest) => Some ([v], rest)
      | _ => None
      end
  end
with members (fuel : nat) (s : string) : option (list (string * json) * string) :=
  match fuel with
  | O => None
  | S fuel =>
      match s with
      | String c r =>
          if Ascii.eqb c dq then
            match until_quote r with
            | Some (k, String ":" r') =>
                match value fuel r' with
                | Some (v, String "," rest) =>
                    match members fuel rest with
                    | Some (l, rest') => Some ((k, v) :: l, rest')
                    | None => None
                    end
                | Some (v, String "}" rest) => Some ([(k, v)], rest)
                | _ => None
                end
            | _ => None
            end
          else None
      | EmptyString => None
      end
  end.

Definition parse (s : string) : outcome json :=
  match value (2 * String.length s + 2) s with
  | Some (v, EmptyString) => Returned v
  | _ => Thrown "SyntaxError: Unexpected token"
  end.

(** Dates are shown as they are stored. *)
Definition show_date (v : json) : string :=
  match v with
  | JStr s => s
  | other => print other
  end.

Definition browser : host :=
  {| JSON_stringify := print; JSON_parse := parse; toLocaleString := show_date |}.

End Text.

(** A small engine with the interface of [jsnes]: its machine counts the
    frames it has run and keeps the buttons held on pad 1 as a bit mask.
    A frame shows the count in two pixels and produces one stereo sample. *)
Module Toy.

Record machine : Type := {
  rom : option string;
  ticks : Z;
  pad : Z
}.

Definition power_on : machine := {| rom := None; ticks := 0; pad := 0 |}.

Definition load (bin : option string) : call machine unit :=
  fun m =>
    match bin with
    | Some s =>
        if truthy_string s
        then (Returned tt, {| rom := Some s; ticks := 0; pad := 0 |})
        else (Thrown "Not a valid NES ROM.", m)
    | None => (Thrown "Not a valid NES ROM.", m)
    end.

Definition run : machine -> list (callback Z) * outcome unit * machine :=
  fun m =>
    match rom m with
    | Some _ =>
        ([OnAudioSample (ticks m) (- ticks m); OnFrame [ticks m; ticks m + 1]],
         Returned tt,
         {| rom := rom m; ticks := ticks m + 1; pad := pad m |})
    | None => ([], Thrown "No ROM loaded.", m)
    end.

(** As in the engine: pads are numbered from 1, and pad 0 does not exist. *)
Definition hold (pressed : bool) (player btn : Z) : call machine unit :=
  fun m =>
    if player =? 1 then
      (Returned tt,
       {| rom := rom m; ticks := ticks m;
          pad := if pressed then Z.lor (pad m) (Z.shiftl 1 btn)
                 else Z.ldiff (pad m) (Z.shiftl 1 btn) |})
    else (Thrown "TypeError: undefined is not an object", m).

Definition snapshot : call machine json :=
  fun m => (Returned (JObj [("ticks", JNum (ticks m)); ("pad", JNum (pad m))]), m).

Definition restore (state : json) : call machine unit :=
  fun m =>
    match get "ticks" (Some state), get "pad" (Some state) with
    | Some (JNum t), Some (JNum b) =>
        (Returned tt, {| rom := rom m; ticks := t; pad := b |})
    | _, _ => (Thrown "Invalid state.", m)
    end.

(** The shapes of the published engine: direct [(player, button)] calls
    and [toJSON] / [fromJSON]. *)
Definition engine : jsnes Z machine :=
  {| new_NES := power_on;
     BUTTON_A := 0; BUTTON_B := 1; BUTTON_SELECT := 2; BUTTON_START := 3;
     BUTTON_UP := 4; BUTTON_DOWN := 5; BUTTON_LEFT := 6; BUTTON_RIGHT := 7;
     controllers_0 := None;
     controller1 := None;
     nes_buttonDown := Some (hold true);
     nes_buttonUp := Some (hold false);
     toJSON := Some snapshot;
     serialize := None;
     saveState := None;
     getState := None;
     fromJSON := Some restore;
     deserialize := None;
     loadState := None;
     setState := None;
     loadROM := load;
     frame := run |}.

(** A build that exposes none of the probed shapes. *)
Definition bare : jsnes Z machine :=
  {| new_NES := power_on;
     BUTTON_A := 0; BUTTON_B := 1; BUTTON_SELECT := 2; BUTTON_START := 3;
     BUTTON_UP := 4; BUTTON_DOWN := 5; BUTTON_LEFT := 6; BUTTON_RIGHT := 7;
     controllers_0 := None;
     controller1 := None;
     nes_buttonDown := None;
     nes_buttonUp := None;
     toJSON := None;
     serialize := None;
     saveState := None;
     getState := None;
     fromJSON := None;
     deserialize := None;
     loadState := None;
     setState := None;
     loadROM := load;
     frame := run |}.

(** A build whose [toJSON] throws while its [serialize] works. *)
Definition flaky : jsnes Z machine :=
  {| new_NES := power_on;
     BUTTON_A := 0; BUTTON_B := 1; BUTTON_SELECT := 2; BUTTON_START := 3;
     BUTTON_UP := 4; BUTTON_DOWN := 5; BUTTON_LEFT := 6; BUTTON_RIGHT := 7;
     controllers_0 := None;
     controller1 := None;
     nes_buttonDown := Some (hold true);
     nes_buttonUp := Some (hold false);
     toJSON := Some (fun m => (Thrown "toJSON failed", m));
     serialize := Some snapshot;
     saveState := None;
     getState := None;
     fromJSON := Some restore;
     deserialize := None;
     loadState := None;
     setState := None;
     loadROM := load;
     frame := run |}.

(** A file with the four bytes of the iNES signature. *)
Definition game : file :=
  {| name := "game.nes";
     bytes := [Byte.x4e; Byte.x45; Byte.x53; Byte.x1a] |}.

(** The component mounted on a canvas of two pixels. *)
Definition boot (audio : option audio_state) : player Z machine :=
  set_canvasRef (Some [0; 0; 0; 255; 0; 0; 0; 255]) (mounted engine ∅ audio).

Definition loaded (audio : option audio_state) : player Z machine :=
  loadRom engine Text.browser (Some game) (boot audio).

Definition playing (audio : option audio_state) : player Z machine :=
  play (loaded audio).

(** Three display refreshes into the game. *)
Definition midgame : player Z machine :=
  snd (loop engine (snd (loop engine (snd (loop engine (playing (Some Live))))))).

Definition noon : string := "2026-01-01T12:00:00.000Z".

(** The storage key of the game. *)
Definition slot : string :=
  "retro-arcade-web:nes:savestate:v1:game.nes:4:7c826827".

(** The session [midgame] with one text stored in the slot of the game. *)
Definition with_record (raw : string) : player Z machine :=
  set_localStorage {[ slot := raw ]} midgame.

(** An envelope that says its format version is 2. *)
Definition from_the_future : json :=
  JObj [("meta", JObj [("version", JNum 2);
                       ("romName", JStr "game.nes");
                       ("romKey", JStr "game.nes:4:7c826827");
                       ("savedAt", JStr noon)]);
        ("state", JObj [("ticks", JNum 9); ("pad", JNum 0)])].

(** An envelope without a state. *)
Definition stateless : json :=
  JObj [("meta", JObj [("version", JNum 1); ("savedAt", JStr noon)])].

(** The instance of [midgame], and the instance one frame later. *)
Definition at_4 : machine := {| rom := Some (bin_of game); ticks := 4; pad := 0 |}.

End Toy.

(** More scenes with the toy engine. *)
Module Scenes.

(** A build whose snapshot is [null]. *)
Definition hollow : jsnes Z Toy.machine :=
  {| new_NES := Toy.power_on;
     BUTTON_A := 0; BUTTON_B := 1; BUTTON_SELECT := 2; BUTTON_START := 3;
     BUTTON_UP := 4; BUTTON_DOWN := 5; BUTTON_LEFT := 6; BUTTON_RIGHT := 7;
     controllers_0 := None;
     controller1 := None;
     nes_buttonDown := Some (Toy.hold true);
     nes_buttonUp := Some (Toy.hold false);
     toJSON := Some (fun m => (Returned JNull, m));
     serialize := None;
     saveState := None;
     getState := None;
     fromJSON := Some Toy.restore;
     deserialize := None;
     loadState := None;
     setState := None;
     loadROM := Toy.load;
     frame := Toy.run |}.



(** An engine that checks the iNES signature: [loadROM] throws unless the
    image starts with the four bytes of the game. *)
Definition strict_load (bin : option string) : call Toy.machine unit :=
  fun m =>
    match bin with
    | Some s =>
        if String.prefix (bin_of Toy.game) s
        then (Returned tt, {| Toy.rom := Some s; Toy.ticks := 0; Toy.pad := 0 |})
        else (Thrown "Not a valid NES ROM.", m)
    | None => (Thrown "Not a valid NES ROM.", m)
    end.

Definition strict : jsnes Z Toy.machine :=
  {| new_NES := Toy.power_on;
     BUTTON_A := 0; BUTTON_B := 1; BUTTON_SELECT := 2; BUTTON_START := 3;
     BUTTON_UP := 4; BUTTON_DOWN := 5; BUTTON_LEFT := 6; BUTTON_RIGHT := 7;
     controllers_0 := None;
     controller1 := None;
     nes_buttonDown := Some (Toy.hold true);
     nes_buttonUp := Some (Toy.hold false);
     toJSON := Some Toy.snapshot;
     serialize := None;
     saveState := None;
     getState := None;
     fromJSON := Some Toy.restore;
     deserialize := None;
     loadState := None;
     setState := None;
     loadROM := strict_load;
     frame := Toy.run |}.

(** A file with the right extension that is not a ROM: the bytes of
    "JUNK". *)
Definition junk : file :=
  {| name := "junk.nes";
     bytes := [Byte.x4a; Byte.x55; Byte.x4e; Byte.x4b] |}.

(** Two loads that overlap.  The user picks the game and, before its read
    has resolved, picks the junk file; the game is read first and boots,
    then the junk file is read and the engine rejects it. *)
Definition overlapped : player Z Toy.machine :=
  session 0 strict Text.browser
    [ChooseFile (Some Toy.game); ChooseFile (Some junk); FileRead 0; FileRead 0]
    (Toy.boot None).

(** A build of the older shape, with the pads under [controllers] and
    [controller1], next to the direct calls. *)
Definition padded : jsnes Z Toy.machine :=
  {| new_NES := Toy.power_on;
     BUTTON_A := 0; BUTTON_B := 1; BUTTON_SELECT := 2; BUTTON_START := 3;
     BUTTON_UP := 4; BUTTON_DOWN := 5; BUTTON_LEFT := 6; BUTTON_RIGHT := 7;
     controllers_0 := Some {| buttonDown := Some (Toy.hold true 1);
                              buttonUp := Some (Toy.hold false 1) |};
     controller1 := Some {| buttonDown := Some (Toy.hold true 2);
                            buttonUp := Some (Toy.hold false 2) |};
     nes_buttonDown := Some (Toy.hold true);
     nes_buttonUp := Some (Toy.hold false);
     toJSON := Some Toy.snapshot;
     serialize := None;
     saveState := None;
     getState := None;
     fromJSON := Some Toy.restore;
     deserialize := None;
     loadState := None;
     setState := None;
     loadROM := Toy.load;
     frame := Toy.run |}.

End Scenes.

(* ===================================================================== *)
(** * Worked examples *)
(* ===================================================================== *)

(** Values of [djb2Hash]; the second goes through negative 32-bit
    intermediate values. *)
Example djb2Hash_abc : djb2Hash "abc" = "b873285".
Proof. reflexivity. Qed.

Example djb2Hash_pangram :
  djb2Hash "The quick brown fox jumps over the lazy dog" = "b679b80a".
Proof. reflexivity. Qed.

Example djb2Hash_empty : djb2Hash "" = "1505".
Proof. reflexivity. Qed.

(** Two pixels painted on an image of nine bytes: the ninth is out of the
    frame and keeps its value. *)
Example paint_two_pixels :
  paint true [1122867; 4289379276] [0; 0; 0; 0; 0; 0; 0; 0; 9]
  = [51; 34; 17; 255; 204; 187; 170; 255; 9].
Proof. reflexivity. Qed.

(** A frame larger than the image: the writes that fall outside are lost. *)
Example paint_out_of_range :
  paint false [1122867; 4289379276] [0; 0; 0; 0; 0; 0] = [17; 34; 51; 255; 170; 187].
Proof. reflexivity. Qed.

(** The consumer on a queue of three samples: one pair, then silence; the
    odd sample stays. *)
Example onaudioprocess_three :
  onaudioprocess 0 3 [1; 2; 3] = ([(1, 2); (0, 0); (0, 0)], [3]).
Proof. reflexivity. Qed.

(** The toy session: the game is loaded, played for three refreshes, saved
    and loaded back. *)
Example toy_loaded_status :
  status (Toy.loaded (Some Live)) = "Loaded. Click Play (audio starts on Play)."
  /\ romKeyRef (Toy.loaded (Some Live)) = Some "game.nes:4:7c826827"
  /\ canvasRef (Toy.loaded (Some Live)) = Some [0; 0; 0; 255; 1; 0; 0; 255].
Proof. repeat split. Qed.

Example toy_midgame :
  nesRef Toy.midgame = Some Toy.at_4
  /\ canvasRef Toy.midgame = Some [3; 0; 0; 255; 4; 0; 0; 255]
  /\ audioQRef Toy.midgame = [0; 0; 1; -1; 2; -2; 3; -3].
Proof. repeat split. Qed.

Example toy_text_roundtrip :
  Text.parse (Text.print (envelope Toy.midgame "game.nes:4:7c826827" Toy.noon
                            (JObj [("ticks", JNum 4); ("pad", JNum 0)])))
  = Returned (envelope Toy.midgame "game.nes:4:7c826827" Toy.noon
                (JObj [("ticks", JNum 4); ("pad", JNum 0)])).
Proof. reflexivity. Qed.

(* ===================================================================== *)
(** * Properties of the audio sample queue *)
(* ===================================================================== *)

Section AudioQueueFacts.

Context {Sample : Type} (zero : Sample).
Implicit Types q : list Sample.

Lemma qlen_app q1 q2 : qlen (q1 ++ q2)%list = qlen q1 + qlen q2.
Proof. unfold qlen. rewrite length_app. lia. Qed.

Lemma onAudioSample_eq l r q :
  onAudioSample l r q = drop (Z.to_nat (qlen q + 2 - max)) (q ++ [l; r])%list.
Proof.
  unfold onAudioSample. rewrite qlen_app. change (qlen [l; r]) with 2.
  destruct (Z.ltb_spec max (qlen q + 2)) as [Hlt | Hge]; [reflexivity |].
  replace (Z.to_nat (qlen q + 2 - max)) with 0%nat by lia. reflexivity.
Qed.

Lemma qlen_onAudioSample l r q :
  qlen (onAudioSample l r q) = Z.min (qlen q + 2) max.
Proof.
  rewrite onAudioSample_eq. unfold qlen at 1.
  rewrite length_drop, length_app. cbn [length]. unfold qlen, max. lia.
Qed.

Lemma pull1_length q :
  (length (snd (pull1 zero q)) = length q \/
   length q = 2 + length (snd (pull1 zero q)))%nat.
Proof. destruct q as [| a [| b rest]]; cbn; auto. Qed.

Lemma onaudioprocess_snd n q :
  snd (onaudioprocess zero (S n) q)
  = snd (onaudioprocess zero n (snd (pull1 zero q))).
Proof.
  cbn [onaudioprocess]. destruct (pull1 zero q) as [lr q1]. cbn [snd].
  destruct (onaudioprocess zero n q1). reflexivity.
Qed.

(** The consumer takes samples away two at a time. *)
Lemma qlen_onaudioprocess n q :
  exists k, 0 <= k /\ qlen q = qlen (snd (onaudioprocess zero n q)) + 2 * k.
Proof.
  revert q. induction n as [| n IH]; intros q.
  - exists 0. cbn. lia.
  - rewrite onaudioprocess_snd.
    destruct (IH (snd (pull1 zero q))) as (k & Hk & Hlen).
    destruct (pull1_length q) as [Hsame | Htwo].
    + exists k. unfold qlen in *. lia.
    + exists (k + 1). unfold qlen in *. lia.
Qed.

Lemma even_queue_nil : even_queue (@nil Sample).
Proof. reflexivity. Qed.

Lemma even_queue_onAudioSample l r q :
  even_queue q -> even_queue (onAudioSample l r q).
Proof.
  unfold even_queue. rewrite qlen_onAudioSample. intros Hq.
  destruct (Z.min_spec (qlen q + 2) max) as [[_ ->] | [_ ->]].
  - rewrite Z.even_add, Hq. reflexivity.
  - reflexivity.
Qed.

Lemma even_queue_onaudioprocess n q :
  even_queue q -> even_queue (snd (onaudioprocess zero n q)).
Proof.
  unfold even_queue. intros Hq.
  destruct (qlen_onaudioprocess n q) as (k & _ & Hlen).
  rewrite Hlen, Z.even_add_mul_2 in Hq. exact Hq.
Qed.

Lemma even_queue_step q op :
  even_queue q -> even_queue (queue_step zero q op).
Proof.
  destruct op as [l r | n |]; cbn [queue_step].
  - apply even_queue_onAudioSample.
  - apply even_queue_onaudioprocess.
  - intros _. apply even_queue_nil.
Qed.

(** The overflow trim takes an even number of samples away. *)
Lemma trim_even l r q :
  even_queue q ->
  Z.even (qlen (q ++ [l; r])%list - qlen (onAudioSample l r q)) = true.
Proof.
  intros Hq. pose proof (even_queue_onAudioSample l r q Hq) as Hq'.
  unfold even_queue in *. rewrite qlen_app. change (qlen [l; r]) with 2.
  rewrite Z.even_sub, Z.even_add, Hq, Hq'. reflexivity.
Qed.

(** With fewer than two samples queued the consumer emits silence and
    takes nothing. *)
Lemma pull1_starved q :
  (length q < 2)%nat -> pull1 zero q = ((zero, zero), q).
Proof. destruct q as [| a [| b rest]]; cbn; intros; [reflexivity .. | lia]. Qed.

(** C3 (audio queue cap).  Whatever the queue holds, [onAudioSample]
    leaves it with [min (length + 2) max] samples, where
    [max = 2 * 44100]: never more than the cap, and exactly the cap when
    the two new samples would exceed it.  What it keeps is the newest
    part of the queue: the oldest samples are the ones dropped.  Hence
    along any sequence of enqueues the queue is within the cap after each
    of them. *)
Theorem onAudioSample_cap (q : list Sample) (l r : Sample)
    (pairs : list (Sample * Sample)) :
  max = 2 * 44100
  /\ qlen (onAudioSample l r q) = Z.min (qlen q + 2) max
  /\ onAudioSample l r q = drop (Z.to_nat (qlen q + 2 - max)) (q ++ [l; r])%list
  /\ Forall (fun q' => qlen q' <= max) (queue_trace zero q (enqueues pairs)).
Proof.
  split; [reflexivity |]. split; [apply qlen_onAudioSample |].
  split; [apply onAudioSample_eq |].
  revert q. induction pairs as [| [l' r'] pairs IH]; intros q; cbn.
  - constructor.
  - constructor; [| apply IH].
    rewrite qlen_onAudioSample. lia.
Qed.

(** A burst of [n] pairs into an empty queue leaves [min (2 n) max]
    samples: ten times the cap leaves exactly the cap. *)
Lemma burst_length (pairs : list (Sample * Sample)) (q : list Sample) :
  qlen q <= max ->
  qlen (fold_left (queue_step zero) (enqueues pairs) q)
  = Z.min (qlen q + 2 * Z.of_nat (length pairs)) max.
Proof.
  revert q. induction pairs as [| [l r] pairs IH]; intros q Hq; cbn [enqueues map fold_left queue_step fst snd length].
  - lia.
  - fold (enqueues pairs). rewrite IH by (rewrite qlen_onAudioSample; lia).
    rewrite qlen_onAudioSample. lia.
Qed.

(** On the queue alone: from a queue of even length, after every operation
    of any sequence of enqueues, device pulls and clears, the number of
    queued samples is even. *)
Lemma queue_trace_even (ops : list (queue_op (Sample := Sample))) (q : list Sample) :
  even_queue q -> Forall even_queue (queue_trace zero q ops).
Proof.
  revert q. induction ops as [| op ops IH]; intros q Hq; cbn.
  - constructor.
  - constructor; [| apply IH]; apply even_queue_step, Hq.
Qed.

End AudioQueueFacts.

(* ===================================================================== *)
(** * Properties of the video sink *)
(* ===================================================================== *)

Section VideoFacts.

Lemma toInt32_congr (x : Z) : exists q, toInt32 x = x + q * 2 ^ 32.
Proof.
  unfold toInt32. exists (- ((x + 2 ^ 31) / 2 ^ 32)).
  pose proof (Z.div_mod (x + 2 ^ 31) (2 ^ 32)). lia.
Qed.

Lemma toInt32_range (x : Z) : - 2 ^ 31 <= toInt32 x < 2 ^ 31.
Proof.
  unfold toInt32. pose proof (Z.mod_pos_bound (x + 2 ^ 31) (2 ^ 32)). lia.
Qed.

Lemma toInt32_small (x : Z) : - 2 ^ 31 <= x < 2 ^ 31 -> toInt32 x = x.
Proof. intros Hx. unfold toInt32. rewrite Z.mod_small; lia. Qed.

(** The low byte of a number is not changed by [ToInt32]. *)
Lemma toInt32_low_byte (x : Z) : toInt32 x mod 256 = x mod 256.
Proof.
  destruct (toInt32_congr x) as [q ->].
  replace (q * 2 ^ 32) with ((q * 2 ^ 24) * 256) by lia.
  apply Z_mod_plus_full.
Qed.

Lemma band_255 (x : Z) : band x 255 = x mod 256.
Proof.
  unfold band. rewrite (toInt32_small 255) by lia.
  change 255 with (Z.ones 8). rewrite Z.land_ones by lia.
  apply toInt32_low_byte.
Qed.

Lemma sar_byte (p k : Z) :
  0 <= k <= 24 -> Z.land k 31 = k -> sar p k mod 256 = (p / 2 ^ k) mod 256.
Proof.
  intros Hk Hland. unfold sar. rewrite Hland, Z.shiftr_div_pow2 by lia.
  destruct (toInt32_congr p) as [q ->].
  replace (q * 2 ^ 32) with ((q * 2 ^ (32 - k)) * 2 ^ k)
    by (rewrite <- Z.mul_assoc, <- Z.pow_add_r by lia; do 2 f_equal; lia).
  rewrite Z.div_add by (apply Z.pow_nonzero; lia).
  replace (q * 2 ^ (32 - k)) with ((q * 2 ^ (24 - k)) * 256)
    by (rewrite <- Z.mul_assoc; f_equal; change 256 with (2 ^ 8);
        rewrite <- Z.pow_add_r by lia; f_equal; lia).
  apply Z_mod_plus_full.
Qed.

(** The three expressions of [onFrame] pick the three low bytes. *)
Lemma low_channel (p : Z) : band p 255 = channel 0 p.
Proof. rewrite band_255. unfold channel. cbn. now rewrite Z.div_1_r. Qed.

Lemma mid_channel (p : Z) : band (sar p 8) 255 = channel 1 p.
Proof. rewrite band_255, sar_byte by (reflexivity || lia). reflexivity. Qed.

Lemma high_channel (p : Z) : band (sar p 16) 255 = channel 2 p.
Proof. rewrite band_255, sar_byte by (reflexivity || lia). reflexivity. Qed.

Lemma put_pixel_length abgr i p data :
  length (put_pixel abgr i p data) = length data.
Proof. unfold put_pixel. destruct abgr; now rewrite !length_insert. Qed.

Lemma put_pixel_lookup abgr i p data (c : nat) :
  (c < 4)%nat -> (i * 4 + c < length data)%nat ->
  put_pixel abgr i p data !! (i * 4 + c)%nat = rgba abgr p !! c.
Proof.
  intros Hc Hlen. unfold put_pixel, rgba.
  rewrite <- low_channel, <- mid_channel, <- high_channel.
  destruct abgr; destruct c as [| [| [| [| c]]]]; try lia;
    rewrite ?list_lookup_insert_ne by lia;
    rewrite list_lookup_insert_eq by (rewrite ?length_insert; lia);
    reflexivity.
Qed.

Lemma put_pixel_other abgr i p data (j : nat) :
  (j < i * 4 \/ i * 4 + 4 <= j)%nat ->
  put_pixel abgr i p data !! j = data !! j.
Proof.
  intros Hj. unfold put_pixel.
  destruct abgr; now rewrite !list_lookup_insert_ne by lia.
Qed.

Lemma paint_from_length abgr fb : forall i data,
  length (paint_from abgr i fb data) = length data.
Proof.
  induction fb as [| p fb IH]; intros i data; cbn [paint_from].
  - reflexivity.
  - now rewrite IH, put_pixel_length.
Qed.

(** The loop never goes back to a pixel it has passed. *)
Lemma paint_from_before abgr fb : forall i data (j : nat),
  (j < i * 4)%nat -> paint_from abgr i fb data !! j = data !! j.
Proof.
  induction fb as [| p fb IH]; intros i data j Hj; cbn [paint_from].
  - reflexivity.
  - rewrite IH by lia. apply put_pixel_other. lia.
Qed.

Lemma paint_from_lookup abgr fb : forall i data (k c : nat) p,
  fb !! k = Some p -> (c < 4)%nat -> ((i + k) * 4 + c < length data)%nat ->
  paint_from abgr i fb data !! ((i + k) * 4 + c)%nat = rgba abgr p !! c.
Proof.
  induction fb as [| p0 fb IH]; intros i data k c p Hk Hc Hlen.
  - discriminate Hk.
  - cbn [paint_from]. destruct k as [| k].
    + injection Hk as ->. rewrite Nat.add_0_r in *.
      rewrite paint_from_before by lia. now apply put_pixel_lookup.
    + replace (i + S k)%nat with (S i + k)%nat in * by lia.
      apply IH; [exact Hk | exact Hc |]. now rewrite put_pixel_length.
Qed.

(** Pixels of the image beyond the frame buffer keep their value. *)
Lemma paint_from_after abgr fb : forall i data (j : nat),
  ((i + length fb) * 4 <= j)%nat -> paint_from abgr i fb data !! j = data !! j.
Proof.
  induction fb as [| p fb IH]; intros i data j Hj; cbn [paint_from length] in *.
  - reflexivity.
  - rewrite IH by lia. apply put_pixel_other. lia.
Qed.

Lemma image_length abgr fb : length (image abgr fb) = (4 * length fb)%nat.
Proof.
  unfold image. induction fb as [| p fb IH]; [reflexivity |].
  cbn [flat_map]. rewrite length_app, IH. destruct abgr; cbn; lia.
Qed.

Lemma image_lookup abgr fb (k c : nat) p :
  fb !! k = Some p -> (c < 4)%nat ->
  image abgr fb !! (k * 4 + c)%nat = rgba abgr p !! c.
Proof.
  unfold image. revert k. induction fb as [| p0 fb IH]; intros k Hk Hc.
  - discriminate Hk.
  - cbn [flat_map]. destruct k as [| k].
    + injection Hk as ->. rewrite lookup_app_l; [reflexivity |].
      destruct abgr; cbn; lia.
    + rewrite lookup_app_r by (destruct abgr; cbn; lia).
      replace (S k * 4 + c - length (rgba abgr p0))%nat with (k * 4 + c)%nat
        by (destruct abgr; cbn; lia).
      now apply IH.
Qed.

(** A frame buffer that covers the image data determines it: what was
    there before does not show through. *)
Lemma paint_covers abgr fb data :
  length data = (4 * length fb)%nat -> paint abgr fb data = image abgr fb.
Proof.
  intros Hlen. apply list_eq. intros j. unfold paint.
  destruct (decide (j < length data)%nat) as [Hj | Hj].
  - pose proof (Nat.div_mod_eq j 4) as Hdm.
    pose proof (Nat.mod_upper_bound j 4 ltac:(lia)) as Hc.
    destruct (lookup_lt_is_Some_2 fb (j / 4)%nat ltac:(lia)) as [p Hp].
    replace j with ((0 + j / 4) * 4 + j mod 4)%nat at 1 by lia.
    rewrite (paint_from_lookup abgr fb 0 data _ _ p Hp Hc) by lia.
    replace j with ((j / 4) * 4 + j mod 4)%nat at 2 by lia.
    now rewrite (image_lookup abgr fb _ _ p Hp Hc).
  - rewrite !lookup_ge_None_2; [reflexivity | |].
    + rewrite image_length. lia.
    + rewrite paint_from_length. lia.
Qed.

End VideoFacts.

(** C9 (video sink).  For every pixel [p] of the frame buffer whose four
    bytes lie inside the image data, which is every pixel of a W x H frame
    on the W x H canvas, the loop of [onFrame] leaves at [4 i], [4 i + 1],
    [4 i + 2] the red, green and blue bytes of [p] and at [4 i + 3] the
    value 255.  With the flag set, red is the lowest byte of [p], green the
    next and blue the third; with the flag cleared, red is the third byte
    and blue the lowest.  The image data keeps its length, and [onFrame]
    puts the image painted with the configured flag, which is set, on the
    canvas. *)
Theorem onFrame_pixels {Sample Machine : Type} (abgr : bool)
    (pl : player Sample Machine) (frameBuffer data : list Z) (i : nat) (p : Z) :
  frameBuffer !! i = Some p ->
  (4 * i + 3 < length data)%nat ->
  paint abgr frameBuffer data !! (4 * i)%nat
  = Some (if abgr then p mod 256 else (p / 2 ^ 16) mod 256)
  /\ paint abgr frameBuffer data !! (4 * i + 1)%nat = Some ((p / 2 ^ 8) mod 256)
  /\ paint abgr frameBuffer data !! (4 * i + 2)%nat
     = Some (if abgr then (p / 2 ^ 16) mod 256 else p mod 256)
  /\ paint abgr frameBuffer data !! (4 * i + 3)%nat = Some 255
  /\ length (paint abgr frameBuffer data) = length data
  /\ canvasRef (onFrame frameBuffer pl)
     = option_map (paint USE_ABGR frameBuffer) (canvasRef pl)
  /\ USE_ABGR = true.
Proof.
  intros Hp Hlen. unfold paint.
  assert (forall c : nat, (c < 4)%nat ->
            paint_from abgr 0 frameBuffer data !! (4 * i + c)%nat
            = rgba abgr p !! c) as Hlook.
  { intros c Hc. replace (4 * i + c)%nat with ((0 + i) * 4 + c)%nat by lia.
    apply paint_from_lookup; [exact Hp | exact Hc | lia]. }
  assert (channel 0 p = p mod 256) as H0
    by (unfold channel; cbn; now rewrite Z.div_1_r).
  assert (channel 1 p = (p / 2 ^ 8) mod 256) as H1 by reflexivity.
  assert (channel 2 p = (p / 2 ^ 16) mod 256) as H2 by reflexivity.
  pose proof (Hlook 0%nat ltac:(lia)) as L0.
  pose proof (Hlook 1%nat ltac:(lia)) as L1.
  pose proof (Hlook 2%nat ltac:(lia)) as L2.
  pose proof (Hlook 3%nat ltac:(lia)) as L3.
  rewrite Nat.add_0_r in L0.
  rewrite L0, L1, L2, L3. unfold rgba.
  destruct abgr; cbn [lookup list_lookup]; rewrite H0, H1, H2;
    (repeat split; [apply paint_from_length |]);
    unfold onFrame; destruct (canvasRef pl) as [d |] eqn:Hd; cbn [option_map];
    try reflexivity; now rewrite <- Hd.
Qed.

Lemma onFrame_pixels_witness :
  paint true [1122867; 4289379276] [0; 0; 0; 0; 0; 0; 0; 0] !! 4%nat = Some 204
  /\ paint false [1122867; 4289379276] [0; 0; 0; 0; 0; 0; 0; 0] !! 4%nat = Some 170.
Proof.
  split.
  - exact (proj1 (onFrame_pixels true (Toy.boot None)
                    [1122867; 4289379276] [0; 0; 0; 0; 0; 0; 0; 0] 1 4289379276
                    eq_refl ltac:(cbn; lia))).
  - exact (proj1 (onFrame_pixels false (Toy.boot None)
                    [1122867; 4289379276] [0; 0; 0; 0; 0; 0; 0; 0] 1 4289379276
                    eq_refl ltac:(cbn; lia))).
Defined.

(* ===================================================================== *)
(** * Properties of the component *)
(* ===================================================================== *)

Section CallbackFacts.

Context {Sample Machine : Type}.
Implicit Types p : player Sample Machine.
Implicit Types cs : list (callback Sample).

(** The callbacks of a frame touch the canvas and the sample queue, and
    nothing else. *)
Lemma run_callbacks_eq cs : forall p,
  run_callbacks cs p
  = set_audioQRef (queue_after cs (audioQRef p))
      (set_canvasRef (canvas_after cs (canvasRef p)) p).
Proof.
  induction cs as [| c cs IH]; intros p.
  - reflexivity.
  - unfold run_callbacks in *. cbn [fold_left]. rewrite IH.
    destruct c as [fb | l r]; cbn [on_callback]; [| reflexivity].
    unfold onFrame, canvas_after. cbn [fold_left].
    destruct (canvasRef p) as [data |] eqn:Hc; cbn [option_map].
    + reflexivity.
    + rewrite <- Hc. reflexivity.
Qed.

Lemma even_queue_queue_after cs : forall q : list Sample,
  even_queue q -> even_queue (queue_after cs q).
Proof.
  unfold queue_after.
  induction cs as [| c cs IH]; intros q Hq; cbn [fold_left]; [exact Hq |].
  apply IH. destruct c; [exact Hq | now apply even_queue_onAudioSample].
Qed.

Lemma canvas_after_frames cs : forall canvas,
  canvas_after cs canvas
  = fold_left (fun canvas fb => option_map (paint USE_ABGR fb) canvas)
      (frames_of cs) canvas.
Proof.
  unfold canvas_after, frames_of.
  induction cs as [| c cs IH]; intros canvas; [reflexivity |].
  destruct c; cbn [fold_left omap]; apply IH.
Qed.

(** A single frame that covers the canvas decides what it shows. *)
Lemma canvas_after_covered cs fb data :
  frames_of cs = [fb] -> length data = (4 * length fb)%nat ->
  canvas_after cs (Some data) = Some (image USE_ABGR fb).
Proof.
  intros Hcs Hlen. rewrite canvas_after_frames, Hcs. cbn.
  now rewrite paint_covers.
Qed.

End CallbackFacts.

Section Alignment.

Context {Sample Machine : Type}.
Context (zero : Sample) (J : jsnes Sample Machine) (B : host).
Implicit Types p : player Sample Machine.

Lemma aligned_run_callbacks cs p : aligned p -> aligned (run_callbacks cs p).
Proof.
  intros Hp. rewrite run_callbacks_eq. now apply even_queue_queue_after.
Qed.

Lemma aligned_drawOneFrame p : aligned p -> aligned (drawOneFrame J p).
Proof.
  intros Hp. unfold drawOneFrame. destruct (nesRef p) as [m |]; [| exact Hp].
  destruct (frame J m) as [[cs o] m']. now apply aligned_run_callbacks.
Qed.

Lemma audioQRef_startAutosaveTimer p :
  audioQRef (startAutosaveTimer p) = audioQRef p.
Proof. unfold startAutosaveTimer, stopAutosaveTimer. case_match; reflexivity. Qed.

Lemma audioQRef_stop p : audioQRef (stop p) = audioQRef p.
Proof. reflexivity. Qed.

Lemma audioQRef_refreshSaveIndicators p :
  audioQRef (refreshSaveIndicators B p) = audioQRef p.
Proof. unfold refreshSaveIndicators. repeat case_match; reflexivity. Qed.

Lemma aligned_loadRom_resume f p : aligned p -> aligned (loadRom_resume J B f p).
Proof.
  intros Hp. unfold loadRom_resume.
  destruct (loadROM J (Some (bin_of f)) (createNES J)) as [[[] | e] n];
    [| exact Hp].
  set (drawn := drawOneFrame J _).
  assert (aligned drawn) as Hdrawn.
  { apply aligned_drawOneFrame. unfold aligned.
    rewrite audioQRef_stop, audioQRef_startAutosaveTimer.
    exact (@even_queue_nil Sample). }
  assert (aligned (refreshSaveIndicators B drawn)) as Hrefreshed
    by (unfold aligned; now rewrite audioQRef_refreshSaveIndicators).
  case_match; exact Hrefreshed.
Qed.

Lemma aligned_play p : aligned p -> aligned (play p).
Proof.
  intros Hp. unfold play, ensureAudio. repeat case_match; exact Hp.
Qed.

Lemma aligned_reset p : aligned p -> aligned (snd (reset J p)).
Proof.
  intros Hp. unfold reset. case_match; [exact Hp |].
  case_match. case_match; cbn [snd]; [| exact (@even_queue_nil Sample)].
  apply aligned_drawOneFrame; exact (@even_queue_nil Sample).
Qed.

Lemma aligned_save silent now p :
  aligned p -> aligned (snd (saveStateToLocalStorage J B silent now p)).
Proof.
  intros Hp. unfold saveStateToLocalStorage. repeat case_match; exact Hp.
Qed.

Lemma aligned_load now p :
  aligned p -> aligned (loadStateFromLocalStorage J B now p).
Proof.
  intros Hp. unfold loadStateFromLocalStorage.
  repeat case_match; try exact Hp.
  apply aligned_drawOneFrame; exact (@even_queue_nil Sample).
Qed.

Lemma aligned_press key isDown p : aligned p -> aligned (snd (press J key isDown p)).
Proof. intros Hp. unfold press. repeat case_match; exact Hp. Qed.

Lemma aligned_loop p : aligned p -> aligned (snd (loop J p)).
Proof.
  intros Hp. unfold loop. case_match; [exact Hp |].
  destruct (nesRef p) as [m |]; [| exact Hp].
  destruct (frame J m) as [[cs o] m'].
  pose proof (aligned_run_callbacks cs (set_nesRef (Some m') p) Hp) as Hrun.
  destruct o; exact Hrun.
Qed.

Lemma aligned_audio_tick p : aligned p -> aligned (snd (audio_tick zero p)).
Proof.
  intros Hp. unfold audio_tick.
  destruct (audioNodeRef p) as [node |]; [| exact Hp].
  destruct (connected node); [| exact Hp].
  pose proof (even_queue_onaudioprocess zero (bufferSize node) _ Hp) as Hq.
  destruct (onaudioprocess zero (bufferSize node) (audioQRef p)) as [out q].
  exact Hq.
Qed.

Lemma aligned_autosave now p : aligned p -> aligned (autosave J B now p).
Proof.
  intros Hp. unfold autosave. case_match; [now apply aligned_save | exact Hp].
Qed.

Lemma aligned_handle p e : aligned p -> aligned (handle zero J B p e).
Proof.
  intros Hp. destruct e; cbn [handle].
  - unfold loadRom_start. repeat case_match; exact Hp.
  - unfold loadRom_settle. case_match; [| exact Hp].
    apply aligned_loadRom_resume. exact Hp.
  - now apply aligned_play.
  - exact Hp.
  - now apply aligned_reset.
  - now apply aligned_save.
  - now apply aligned_load.
  - unfold deleteStateFromLocalStorage. case_match; exact Hp.
  - unfold down. case_match; [now apply aligned_press | exact Hp].
  - unfold up. case_match; [now apply aligned_press | exact Hp].
  - now apply aligned_loop.
  - now apply aligned_audio_tick.
  - now apply aligned_autosave.
  - now apply aligned_autosave.
Qed.

(** C10 (stereo alignment).  The sample queue of a mounted component holds
    an even number of samples after any sequence of events: file choices
    and the file reads they wait for, in any interleaving, clicks on Play, Pause, Reset, Save, Load and Delete, key events,
    display refreshes (which run engine frames and so enqueue sample
    pairs, trimming at the cap), audio device callbacks (which take pairs,
    or emit silence) and autosaves; the cleanup on unmount empties the
    queue as well.  So a left sample is always followed by its right
    sample. *)
Theorem audio_queue_stays_aligned (es : list event)
    (store : gmap string string) (audio : option audio_state) :
  aligned (session zero J B es (mounted J store audio))
  /\ aligned (unmount (session zero J B es (mounted J store audio))).
Proof.
  split; [| exact (@even_queue_nil Sample)].
  unfold session.
  assert (aligned (mounted J store audio)) as Hstart by exact (@even_queue_nil Sample).
  revert Hstart. generalize (mounted J store audio).
  induction es as [| e es IH]; intros p Hp; cbn [fold_left].
  - exact Hp.
  - apply IH, aligned_handle, Hp.
Qed.

End Alignment.

(* ===================================================================== *)
(** * The hash *)
(* ===================================================================== *)

Section HashFacts.

Lemma lxor_mod_pow2 (a b n : Z) :
  0 <= n -> Z.lxor a b mod 2 ^ n = Z.lxor (a mod 2 ^ n) (b mod 2 ^ n).
Proof.
  intros Hn. apply Z.bits_inj'. intros k Hk.
  destruct (Z_lt_dec k n) as [Hlow | Hhigh].
  - rewrite Z.mod_pow2_bits_low, !Z.lxor_spec, !Z.mod_pow2_bits_low by lia.
    reflexivity.
  - rewrite Z.mod_pow2_bits_high, Z.lxor_spec, !Z.mod_pow2_bits_high by lia.
    reflexivity.
Qed.

Lemma toInt32_mod (x : Z) : toInt32 x mod 2 ^ 32 = x mod 2 ^ 32.
Proof.
  destruct (toInt32_congr x) as [q ->]. apply Z_mod_plus_full.
Qed.

Lemma charCode_byte (c : ascii) : 0 <= charCode c < 256.
Proof.
  unfold charCode. pose proof (N_ascii_bounded c). lia.
Qed.

Lemma shl_5_mod (h : Z) : shl h 5 mod 2 ^ 32 = (32 * h) mod 2 ^ 32.
Proof.
  unfold shl. change (Z.land 5 31) with 5.
  rewrite toInt32_mod, Z.shiftl_mul_pow2 by lia.
  rewrite <- Z.mul_mod_idemp_l, toInt32_mod, Z.mul_mod_idemp_l by lia.
  f_equal. lia.
Qed.

(** One turn of the loop, read as an unsigned number. *)
Lemma djb2_step_unsigned (h : Z) (c : ascii) :
  djb2_step h c mod 2 ^ 32
  = Z.lxor ((33 * (h mod 2 ^ 32)) mod 2 ^ 32) (charCode c).
Proof.
  unfold djb2_step, bxor. rewrite lxor_mod_pow2, !toInt32_mod by lia.
  f_equal.
  - rewrite <- Z.add_mod_idemp_l, shl_5_mod, Z.add_mod_idemp_l by lia.
    rewrite Z.mul_mod_idemp_r by lia. f_equal. lia.
  - apply Z.mod_small. pose proof (charCode_byte c). lia.
Qed.

Lemma djb2_unsigned_range (str : string) : forall u,
  0 <= u < 2 ^ 32 -> 0 <= djb2_unsigned u str < 2 ^ 32.
Proof.
  induction str as [| c rest IH]; intros u Hu; cbn [djb2_unsigned]; [exact Hu |].
  apply IH.
  pose proof (charCode_byte c) as Hc.
  pose proof (Z.mod_pos_bound (33 * u) (2 ^ 32) ltac:(lia)) as Hm.
  split.
  - apply Z.lxor_nonneg. lia.
  - assert (Z.lxor ((33 * u) mod 2 ^ 32) (charCode c) mod 2 ^ 32
            = Z.lxor ((33 * u) mod 2 ^ 32) (charCode c)) as <-.
    { rewrite lxor_mod_pow2 by lia.
      rewrite Z.mod_mod by lia. f_equal. apply Z.mod_small. lia. }
    apply Z.mod_pos_bound. lia.
Qed.

Lemma djb2_loop_unsigned (str : string) : forall h,
  djb2_loop h str mod 2 ^ 32 = djb2_unsigned (h mod 2 ^ 32) str.
Proof.
  induction str as [| c rest IH]; intros h; cbn [djb2_loop djb2_unsigned].
  - reflexivity.
  - now rewrite IH, djb2_step_unsigned.
Qed.

Lemma djb2Hash_eq (str : string) :
  djb2Hash str = hex (Z.to_N (djb2_unsigned 5381 str)).
Proof.
  unfold djb2Hash, shr, toUint32. change (Z.land 0 31) with 0.
  rewrite Z.shiftr_0_r, djb2_loop_unsigned. reflexivity.
Qed.

(** X16.  [djb2Hash], written with signed 32-bit operators, computes the
    unsigned 32-bit hash "times 33, xor the character" from 5381: its
    result is the hexadecimal text of that number, which is below
    [2 ^ 32]. *)
Theorem djb2Hash_unsigned (str : string) :
  djb2Hash str = hex (Z.to_N (djb2_unsigned 5381 str))
  /\ 0 <= djb2_unsigned 5381 str < 2 ^ 32.
Proof.
  split.
  - apply djb2Hash_eq.
  - apply djb2_unsigned_range. lia.
Qed.

End HashFacts.

(* ===================================================================== *)
(** * The ROM key and the stored record *)
(* ===================================================================== *)

Section SaveStateFacts.

Context {Sample Machine : Type}.
Context (J : jsnes Sample Machine) (B : host).
Implicit Types p : player Sample Machine.

Lemma string_of_list_byte_length (l : list Byte.byte) :
  String.length (string_of_list_byte l) = length l.
Proof.
  unfold string_of_list_byte.
  induction l as [| b l IH]; cbn; [reflexivity | now rewrite IH].
Qed.

(** Slicing the binary string is taking the first bytes of the file. *)
Lemma slice0_bytes (n : nat) (l : list Byte.byte) :
  slice0 n (string_of_list_byte l) = string_of_list_byte (take n l).
Proof.
  unfold slice0, string_of_list_byte. revert l.
  induction n as [| n IH]; intros [| b l]; cbn; try reflexivity.
  now rewrite IH.
Qed.

Lemma getSaveStorageKey_bound p k :
  romKeyRef p = Some k -> truthy_string k = true ->
  getSaveStorageKey p = Some ("retro-arcade-web:nes:savestate:v1:" ++ k)%string.
Proof. intros Hk Ht. unfold getSaveStorageKey. now rewrite Hk, Ht. Qed.

Lemma getSaveStorageKey_unbound p :
  truthy_ostring (romKeyRef p) = false -> getSaveStorageKey p = None.
Proof.
  unfold getSaveStorageKey, truthy_ostring.
  destruct (romKeyRef p) as [k |]; [intros -> |]; reflexivity.
Qed.

Lemma romKeyRef_drawOneFrame p : romKeyRef (drawOneFrame J p) = romKeyRef p.
Proof.
  unfold drawOneFrame. destruct (nesRef p) as [m |]; [| reflexivity].
  destruct (frame J m) as [[cs o] m']. now rewrite run_callbacks_eq.
Qed.

Lemma romKeyRef_refreshSaveIndicators p :
  romKeyRef (refreshSaveIndicators B p) = romKeyRef p.
Proof. unfold refreshSaveIndicators. repeat case_match; reflexivity. Qed.

Lemma romKeyRef_startAutosaveTimer p :
  romKeyRef (startAutosaveTimer p) = romKeyRef p.
Proof. unfold startAutosaveTimer, stopAutosaveTimer. case_match; reflexivity. Qed.

Lemma romKeyRef_loadRom_resume f p :
  romKeyRef (loadRom_resume J B f p) = Some (romKey_of f).
Proof.
  unfold loadRom_resume.
  destruct (loadROM J (Some (bin_of f)) (createNES J)) as [[[] | e] n];
    [| reflexivity].
  set (shown := refreshSaveIndicators B _).
  assert (romKeyRef shown = Some (romKey_of f)) as Hshown.
  { unfold shown.
    rewrite romKeyRef_refreshSaveIndicators, romKeyRef_drawOneFrame.
    change (romKeyRef (stop ?x)) with (romKeyRef x).
    now rewrite romKeyRef_startAutosaveTimer. }
  case_match; exact Hshown.
Qed.

(** C8 (ROM identity key).  When [loadRom] accepts a file, the key it
    binds is the file name, the number of bytes of the file in decimal
    and the hash of its first 20000 bytes, joined by colons.  The hash is
    the unsigned 32-bit number reached from 5381 by "times 33, xor the
    byte" over those bytes, written in hexadecimal.  The key depends on
    nothing else: two loads of files with the same name and the same
    bytes bind the same key, whatever the two sessions were doing
    before; and it is the key bound when the read of the file resolves
    late, after other events. *)
Theorem loadRom_romKey (f : file) (p : player Sample Machine) :
  accepts f = true ->
  romKeyRef (loadRom J B (Some f) p)
  = Some (name f ++ ":" ++ dec (N.of_nat (length (bytes f))) ++ ":"
          ++ hex (Z.to_N (djb2_unsigned 5381
                            (string_of_list_byte
                               (take (Z.to_nat 20000) (bytes f))))))%string
  /\ (forall (f' : file) (p' : player Sample Machine),
       name f' = name f -> bytes f' = bytes f ->
       romKeyRef (loadRom J B (Some f') p') = romKeyRef (loadRom J B (Some f) p))
  /\ (forall (i : nat) (q : player Sample Machine),
       pending_reads q !! i = Some f ->
       romKeyRef (loadRom_settle J B i q) = romKeyRef (loadRom J B (Some f) p)).
Proof.
  intros Hacc.
  assert (forall g q, accepts g = true ->
                      romKeyRef (loadRom J B (Some g) q) = Some (romKey_of g)) as Hkey.
  { intros g q Hg. unfold loadRom. rewrite Hg. apply romKeyRef_loadRom_resume. }
  split; [| split].
  - rewrite Hkey by exact Hacc. unfold romKey_of, bin_of, strlen.
    now rewrite string_of_list_byte_length, slice0_bytes, djb2Hash_eq.
  - intros f' p' Hname Hbytes.
    assert (accepts f' = true) as Hacc' by (unfold accepts in *; now rewrite Hname).
    rewrite !Hkey by assumption.
    unfold romKey_of, bin_of. now rewrite Hname, Hbytes.
  - intros i q Hi. unfold loadRom_settle. rewrite Hi.
    rewrite Hkey by exact Hacc. apply romKeyRef_loadRom_resume.
Qed.

(** C7 (persisted record), as the component has it.  With a ROM key
    bound and an engine whose export returns a snapshot,
    [saveStateToLocalStorage] answers [true] and stores, under the key
    [retro-arcade-web:nes:savestate:v1:<rom key>], the JSON text of the
    envelope [{meta: {version, romName, romKey, savedAt}, state}], whose
    [savedAt] is the ISO string of the clock; every other record of the
    store is kept.  With a ROM key bound and an export that throws, it
    answers [false] and stores nothing: the exception is caught, and the
    status line reads "Save failed: " with the message unless the save is
    a silent one.  With no ROM key bound it answers [false] and the store
    is the one it found: nothing changes but the status line, which reads
    "Load a ROM before saving." unless the save is a silent one. *)
Theorem save_record_layout (silent : bool) (now : string)
    (p : player Sample Machine) :
  (forall (k : string) (m : Machine) (state : json) (n : option Machine),
     romKeyRef p = Some k -> truthy_string k = true ->
     nesRef p = Some m ->
     exportState J (Some m) = (Returned state, n) ->
     let key := ("retro-arcade-web:nes:savestate:v1:" ++ k)%string in
     let record :=
       JObj [("meta", JObj [("version", JNum 1);
                            ("romName", JStr (or_string (romNameRef p) (loadedName p)));
                            ("romKey", JStr k);
                            ("savedAt", JStr now)]);
             ("state", state)] in
     fst (saveStateToLocalStorage J B silent now p) = true
     /\ localStorage (snd (saveStateToLocalStorage J B silent now p))
        = <[key := JSON_stringify B record]> (localStorage p))
  /\ (forall (k : string) (m : Machine) (e : string) (n : option Machine),
      romKeyRef p = Some k -> truthy_string k = true ->
      nesRef p = Some m ->
      exportState J (Some m) = (Thrown e, n) ->
      fst (saveStateToLocalStorage J B silent now p) = false
      /\ localStorage (snd (saveStateToLocalStorage J B silent now p))
         = localStorage p
      /\ status (snd (saveStateToLocalStorage J B silent now p))
         = if silent then status p else ("Save failed: " ++ err_text e)%string)
  /\ (truthy_ostring (romKeyRef p) = false ->
      fst (saveStateToLocalStorage J B silent now p) = false
      /\ localStorage (snd (saveStateToLocalStorage J B silent now p))
         = localStorage p
      /\ snd (saveStateToLocalStorage J B silent now p)
         = if silent then p else setStatus "Load a ROM before saving." p).
Proof.
  split; [| split].
  - intros k m state n Hk Ht Hm Hexport key record.
    unfold saveStateToLocalStorage.
    rewrite (getSaveStorageKey_bound p k Hk Ht), Hm, Hexport.
    unfold envelope. rewrite Hk. cbn [default].
    destruct silent; split; reflexivity.
  - intros k m e n Hk Ht Hm Hexport.
    unfold saveStateToLocalStorage.
    rewrite (getSaveStorageKey_bound p k Hk Ht), Hm, Hexport.
    destruct silent; repeat split.
  - intros Hp. unfold saveStateToLocalStorage.
    rewrite (getSaveStorageKey_unbound p Hp).
    destruct silent; repeat split.
Qed.

End SaveStateFacts.

Lemma loadRom_romKey_witness :
  romKeyRef (loadRom Toy.engine Text.browser (Some Toy.game) (Toy.boot None))
  = Some "game.nes:4:7c826827".
Proof.
  exact (proj1 (loadRom_romKey Toy.engine Text.browser Toy.game (Toy.boot None)
                  eq_refl)).
Defined.

Lemma save_record_layout_witness :
  (fst (saveStateToLocalStorage Toy.engine Text.browser false Toy.noon Toy.midgame)
   = true
   /\ localStorage (snd (saveStateToLocalStorage Toy.engine Text.browser false
                           Toy.noon Toy.midgame))
      = <[ "retro-arcade-web:nes:savestate:v1:game.nes:4:7c826827" :=
             Text.print
               (JObj [("meta", JObj [("version", JNum 1);
                                     ("romName", JStr "game.nes");
                                     ("romKey", JStr "game.nes:4:7c826827");
                                     ("savedAt", JStr Toy.noon)]);
                      ("state", JObj [("ticks", JNum 4); ("pad", JNum 0)])]) ]>
          (localStorage Toy.midgame))
  /\ (fst (saveStateToLocalStorage Toy.flaky Text.browser false Toy.noon Toy.midgame)
      = false
      /\ localStorage (snd (saveStateToLocalStorage Toy.flaky Text.browser false
                              Toy.noon Toy.midgame))
         = localStorage Toy.midgame)
  /\ fst (saveStateToLocalStorage Toy.engine Text.browser false Toy.noon
            (Toy.boot None)) = false.
Proof.
  split; [| split].
  - exact (proj1 (save_record_layout Toy.engine Text.browser false Toy.noon
                    Toy.midgame)
             "game.nes:4:7c826827" Toy.at_4
             (JObj [("ticks", JNum 4); ("pad", JNum 0)]) (Some Toy.at_4)
             eq_refl eq_refl eq_refl eq_refl).
  - destruct (proj1 (proj2 (save_record_layout Toy.flaky Text.browser false
                              Toy.noon Toy.midgame))
                "game.nes:4:7c826827" Toy.at_4 "toJSON failed" (Some Toy.at_4)
                eq_refl eq_refl eq_refl eq_refl) as (Hfalse & Hstore & _).
    split; [exact Hfalse | exact Hstore].
  - exact (proj1 (proj2 (proj2 (save_record_layout Toy.engine Text.browser false
                                  Toy.noon (Toy.boot None))) eq_refl)).
Defined.

(** C7, counterexample to the claim as it is worded.  A ROM is bound, the
    slot key exists and the engine runs, but the export throws: on a build
    whose [toJSON] throws, [saveStateToLocalStorage] answers [false],
    reports the failure and leaves the store as it was, so no envelope is
    persisted under the key of the ROM. *)
Lemma save_with_rom_bound_stores_nothing :
  getSaveStorageKey Toy.midgame
  = Some "retro-arcade-web:nes:savestate:v1:game.nes:4:7c826827"
  /\ loadedName Toy.midgame = "game.nes"
  /\ fst (saveStateToLocalStorage Toy.flaky Text.browser false Toy.noon Toy.midgame)
     = false
  /\ localStorage (snd (saveStateToLocalStorage Toy.flaky Text.browser false
                          Toy.noon Toy.midgame))
     = localStorage Toy.midgame
  /\ localStorage Toy.midgame = ∅
  /\ status (snd (saveStateToLocalStorage Toy.flaky Text.browser false
                    Toy.noon Toy.midgame))
     = "Save failed: toJSON failed".
Proof. repeat split. Qed.

Section SessionControlFacts.

Context {Sample Machine : Type}.
Context (J : jsnes Sample Machine) (B : host).
Implicit Types p : player Sample Machine.

Lemma run_state_Idle p : run_state_of p = Idle -> truthy_string (loadedName p) = false.
Proof. unfold run_state_of. repeat case_match; intros; (discriminate || now destruct (truthy_string _)). Qed.

Lemma run_state_Running p :
  run_state_of p = Running ->
  truthy_string (loadedName p) = true /\ runningRef p = true.
Proof.
  unfold run_state_of.
  destruct (truthy_string (loadedName p)), (runningRef p); cbn;
    intros; (discriminate || tauto).
Qed.

Lemma run_state_Loaded p :
  run_state_of p = Loaded ->
  truthy_string (loadedName p) = true /\ runningRef p = false.
Proof.
  unfold run_state_of.
  destruct (truthy_string (loadedName p)), (runningRef p); cbn;
    intros; (discriminate || tauto).
Qed.

(** [ensureAudio] touches the audio refs and the status line only. *)
Lemma ensureAudio_keeps p :
  runningRef (ensureAudio p) = runningRef p
  /\ loadedName (ensureAudio p) = loadedName p
  /\ rafRef (ensureAudio p) = rafRef p
  /\ nesRef (ensureAudio p) = nesRef p
  /\ audioQRef (ensureAudio p) = audioQRef p
  /\ localStorage (ensureAudio p) = localStorage p
  /\ next_handle (ensureAudio p) = next_handle p.
Proof. unfold ensureAudio. repeat case_match; repeat split. Qed.

Lemma ensureAudio_live p : audioCtxRef p = Some Live -> ensureAudio p = p.
Proof.
  intros Hctx. unfold ensureAudio. rewrite Hctx. cbn [resume].
  rewrite <- Hctx. reflexivity.
Qed.

(** C6 (play), as the component has it.  With no ROM loaded, [play]
    reports "Load a ROM first." and changes nothing else.  In a running
    session it runs [ensureAudio] and nothing more: the run flag, the
    scheduled refresh, the engine, the queue and the store are the ones
    it found, and when the audio context exists and is live the whole
    state is unchanged; but a suspended context is resumed, and a browser
    without an audio facility gets the status line rewritten.  With a ROM
    loaded and the loop stopped, [play] runs [ensureAudio], sets the run
    flag, reports "Playing" and schedules the first refresh of the
    loop. *)
Theorem play_cases (p : player Sample Machine) :
  (run_state_of p = Idle -> play p = setStatus "Load a ROM first." p)
  /\ (run_state_of p = Running ->
      play p = ensureAudio p
      /\ run_state_of (play p) = Running
      /\ rafRef (play p) = rafRef p
      /\ nesRef (play p) = nesRef p
      /\ audioQRef (play p) = audioQRef p
      /\ localStorage (play p) = localStorage p
      /\ (audioCtxRef p = Some Live -> play p = p))
  /\ (run_state_of p = Loaded ->
      play p = requestAnimationFrame
                 (setStatus "Playing… (Press Enter = Start)"
                    (set_runningRef true (ensureAudio p)))
      /\ run_state_of (play p) = Running
      /\ rafRef (play p) = Some (next_handle p)).
Proof.
  destruct (ensureAudio_keeps p) as (Krun & Kname & Kraf & Knes & Kq & Kstore & Knext).
  split; [| split].
  - intros Hidle%run_state_Idle. unfold play. now rewrite Hidle.
  - intros [Hname Hrun]%run_state_Running.
    assert (play p = ensureAudio p) as Hplay.
    { unfold play. rewrite Hname. cbn [negb]. now rewrite Krun, Hrun. }
    rewrite Hplay. unfold run_state_of. rewrite Krun, Kname, Hname, Hrun.
    repeat split; try assumption. apply ensureAudio_live.
  - intros [Hname Hrun]%run_state_Loaded.
    assert (play p = requestAnimationFrame
                       (setStatus "Playing… (Press Enter = Start)"
                          (set_runningRef true (ensureAudio p)))) as Hplay.
    { unfold play. rewrite Hname. cbn [negb]. now rewrite Krun, Hrun. }
    rewrite Hplay. unfold run_state_of, requestAnimationFrame.
    change (loadedName (set_next_handle _ (set_rafRef _ (setStatus _ (set_runningRef _ ?x)))))
      with (loadedName x).
    rewrite Kname, Hname.
    repeat split.
    transitivity (Some (next_handle (ensureAudio p))); [reflexivity |].
    now rewrite Knext.
Qed.

End SessionControlFacts.

Lemma play_cases_witness :
  play (Toy.boot (Some Live)) = setStatus "Load a ROM first." (Toy.boot (Some Live))
  /\ play (Toy.playing (Some Live)) = Toy.playing (Some Live)
  /\ rafRef (play (Toy.loaded (Some Live))) = Some 2%positive.
Proof.
  split; [| split].
  - exact (proj1 (play_cases (Toy.boot (Some Live))) eq_refl).
  - destruct (proj1 (proj2 (play_cases (Toy.playing (Some Live)))) eq_refl)
      as (_ & _ & _ & _ & _ & _ & Hsame).
    exact (Hsame eq_refl).
  - destruct (proj2 (proj2 (play_cases (Toy.loaded (Some Live)))) eq_refl)
      as (_ & _ & Hraf).
    exact Hraf.
Defined.

(** C6, counterexample to the claim as it is worded.  In a browser without
    an audio facility, a second [play] in a running session is not a no-op:
    it replaces the status line "Playing" by the report that audio is not
    supported. *)
Lemma play_while_running_not_noop :
  run_state_of (Toy.playing None) = Running
  /\ status (Toy.playing None) = "Playing… (Press Enter = Start)"
  /\ status (play (Toy.playing None)) = "AudioContext not supported in this browser."
  /\ play (Toy.playing None) <> Toy.playing None.
Proof.
  split; [reflexivity |]. split; [reflexivity |]. split; [reflexivity |].
  intros Heq. apply (f_equal status) in Heq. vm_compute in Heq. discriminate Heq.
Qed.

Section ResetFacts.

Context {Sample Machine : Type}.
Context (J : jsnes Sample Machine) (B : host).
Implicit Types p : player Sample Machine.

Lemma drawOneFrame_eq p m cs o m' :
  nesRef p = Some m -> frame J m = (cs, o, m') ->
  drawOneFrame J p
  = set_audioQRef (queue_after cs (audioQRef p))
      (set_canvasRef (canvas_after cs (canvasRef p)) (set_nesRef (Some m') p)).
Proof.
  intros Hm Hframe. unfold drawOneFrame. rewrite Hm, Hframe.
  now rewrite run_callbacks_eq.
Qed.

Lemma reset_eq p bin m1 :
  romBinRef p = Some bin -> truthy_string bin = true ->
  loadROM J (Some bin) (createNES J) = (Returned tt, m1) ->
  reset J p
  = (Returned tt,
     drawOneFrame J
       (setStatus "Reset complete. Click Play to start fresh."
          (setLoadedName (or_string (romNameRef p) (loadedName p))
             (set_nesRef (Some m1)
                (set_audioQRef [] (set_nesRef (Some (createNES J)) (stop p))))))).
Proof.
  intros Hbin Ht Hload. unfold reset. rewrite Hbin. cbn [truthy_ostring].
  rewrite Ht. cbn [negb]. cbv zeta.
  change (romBinRef (set_audioQRef _ _)) with (romBinRef p).
  now rewrite Hbin, Hload.
Qed.





End ResetFacts.


(** C5 (reset), the component at the input where it fails.  Two loads
    overlap: the game is chosen, then a file that is not a ROM, and the
    game is read first.  The game boots and its name is shown, so the
    Reset button is enabled; then the other file is read, is retained as
    the ROM and is rejected by the engine.  A ROM is bound, yet [reset]
    neither reports "No ROM loaded" nor cold-boots: its call of [loadROM],
    which unlike the calls in [loadRom] and [loadStateFromLocalStorage]
    is not inside a [try], throws; the exception leaves [reset], no frame
    is drawn, the status line is the one of the failed load, and the
    engine in place holds no ROM. *)
Lemma reset_of_rejected_rom_throws :
  romBinRef Scenes.overlapped = Some "JUNK"
  /\ loadedName Scenes.overlapped = "game.nes"
  /\ status Scenes.overlapped = "Failed to load ROM: Not a valid NES ROM."
  /\ fst (reset Scenes.strict Scenes.overlapped) = Thrown "Not a valid NES ROM."
  /\ canvasRef (snd (reset Scenes.strict Scenes.overlapped))
     = canvasRef Scenes.overlapped
  /\ status (snd (reset Scenes.strict Scenes.overlapped))
     = status Scenes.overlapped
  /\ nesRef (snd (reset Scenes.strict Scenes.overlapped)) = Some Toy.power_on.
Proof. repeat split. Qed.

Section AdapterFacts.

Context {Sample Machine : Type}.
Context (J : jsnes Sample Machine).
Implicit Types p : player Sample Machine.

(** Attempts that decline are passed over. *)
Lemma run_attempts_skip (before : list (attempt (Machine := Machine)))
    (rest : list attempt) (m : Machine) :
  Forall (declines m) before ->
  run_attempts (before ++ rest) m = run_attempts rest m.
Proof.
  induction 1 as [| fn before [Hfalse | [e Hthrown]] _ IH]; cbn [app run_attempts].
  - reflexivity.
  - now rewrite Hfalse.
  - now rewrite Hthrown.
Qed.

Lemma run_attempts_first (before : list (attempt (Machine := Machine)))
    (fn : attempt) (after : list attempt) (m m' : Machine) :
  Forall (declines m) before -> fn m = (Returned true, m') ->
  run_attempts (before ++ fn :: after) m = (true, m').
Proof.
  intros Hbefore Hfn. rewrite run_attempts_skip by exact Hbefore.
  cbn [run_attempts]. now rewrite Hfn.
Qed.

Lemma run_attempts_none (fns : list (attempt (Machine := Machine))) (m : Machine) :
  Forall (declines m) fns -> run_attempts fns m = (false, m).
Proof.
  intros Hfns. rewrite <- (app_nil_r fns). now rewrite run_attempts_skip.
Qed.

(** With none of the four shapes present every attempt declines. *)
Lemma attempts_absent isDown btn (m : Machine) :
  controllers_0 J = None -> controller1 J = None ->
  nes_buttonDown J = None \/ nes_buttonUp J = None ->
  Forall (declines m) (attempts J isDown btn).
Proof.
  intros Hc0 Hc1 Hdirect. unfold attempts, via_controller, via_nes.
  rewrite Hc0, Hc1.
  assert (forall player,
            (match nes_buttonDown J, nes_buttonUp J with
             | Some down, Some up =>
                 then_true ((if isDown then down else up) player btn)
             | _, _ => fun m0 : Machine => (Returned false, m0)
             end) m = (Returned false, m)) as Hnes.
  { intros player. destruct Hdirect as [-> | ->]; [reflexivity |].
    destruct (nes_buttonDown J); reflexivity. }
  repeat constructor; apply Hnes.
Qed.

(** C4 (engine adapter), as the component has it.  Export and import take
    the first method that exists, in the orders [toJSON], [serialize],
    [saveState], [getState] and [fromJSON], [deserialize], [loadState],
    [setState], and call it: what it returns or throws is the result, and
    no other shape is tried after a throw.  With none of the four they
    throw an error that names the missing save-state or load-state API.
    [press] runs its four attempts in order on the instance: attempts that
    decline are passed over, the first that answers [true] ends the probe
    with the instance as that attempt left it, and, with all shapes absent
    as in every other case, [press] returns normally, with the component
    unchanged: it reports nothing.  What the four attempts do is the
    probing rule [first_success] on four candidate calls in this order:
    the method of [controllers[0]], the method of [controller1], the
    direct call for player 0 and the direct call for player 1, where a
    controller stands for the call of its [buttonDown] on a press and of
    its [buttonUp] on a release, and the direct calls exist when both
    [buttonDown] and [buttonUp] are functions.  In particular: a
    [controllers[0]] whose method returns is used whatever else the build
    has; [controller1] is used when [controllers[0]] is absent, or when
    its method throws; the direct call for player 0 is used when both
    controllers are absent, and the one for player 1 when that for
    player 0 throws. *)
Theorem adapter_probing (m : Machine) (state : json) (key : string)
    (isDown : bool) (p : player Sample Machine) :
  exportState J (Some m)
  = match first_present [toJSON J; serialize J; saveState J; getState J] with
    | Some method => invoke method m
    | None => (Thrown "This jsnes build does not expose a save-state API.", Some m)
    end
  /\ importState J (Some m) state
     = match first_present [fromJSON J; deserialize J; loadState J; setState J] with
       | Some method => invoke (method state) m
       | None => (Thrown "This jsnes build does not expose a load-state API.", Some m)
       end
  /\ fst (press J key isDown p) = Returned tt
  /\ (forall btn, nesRef p = Some m -> buttonMap J key = Some btn ->
      snd (press J key isDown p)
      = set_nesRef (Some (snd (run_attempts (attempts J isDown btn) m))) p)
  /\ (forall before fn after m',
      Forall (declines m) before -> fn m = (Returned true, m') ->
      run_attempts (before ++ fn :: after) m = (true, m'))
  /\ (controllers_0 J = None -> controller1 J = None ->
      nes_buttonDown J = None \/ nes_buttonUp J = None ->
      press J key isDown p = (Returned tt, p))
  /\ (forall btn,
      let through (c : controller Machine) : call Machine unit :=
        match (if isDown then buttonDown c else buttonUp c) with
        | Some method => method btn
        | None => fun m => (Thrown "TypeError: not a function", m)
        end in
      let direct (player : Z) : option (call Machine unit) :=
        match nes_buttonDown J, nes_buttonUp J with
        | Some pressed, Some released =>
            Some ((if isDown then pressed else released) player btn)
        | _, _ => None
        end in
      run_attempts (attempts J isDown btn) m
      = first_success [option_map through (controllers_0 J);
                       option_map through (controller1 J);
                       direct 0; direct 1] m)
  /\ (forall btn c method m',
      controllers_0 J = Some c ->
      (if isDown then buttonDown c else buttonUp c) = Some method ->
      method btn m = (Returned tt, m') ->
      run_attempts (attempts J isDown btn) m = (true, m'))
  /\ (forall btn c method m',
      controllers_0 J = None -> controller1 J = Some c ->
      (if isDown then buttonDown c else buttonUp c) = Some method ->
      method btn m = (Returned tt, m') ->
      run_attempts (attempts J isDown btn) m = (true, m'))
  /\ (forall btn c0 method0 e m0 c method m',
      controllers_0 J = Some c0 ->
      (if isDown then buttonDown c0 else buttonUp c0) = Some method0 ->
      method0 btn m = (Thrown e, m0) ->
      controller1 J = Some c ->
      (if isDown then buttonDown c else buttonUp c) = Some method ->
      method btn m0 = (Returned tt, m') ->
      run_attempts (attempts J isDown btn) m = (true, m'))
  /\ (forall btn pressed released m',
      controllers_0 J = None -> controller1 J = None ->
      nes_buttonDown J = Some pressed -> nes_buttonUp J = Some released ->
      (if isDown then pressed else released) 0 btn m = (Returned tt, m') ->
      run_attempts (attempts J isDown btn) m = (true, m'))
  /\ (forall btn pressed released e m0 m',
      controllers_0 J = None -> controller1 J = None ->
      nes_buttonDown J = Some pressed -> nes_buttonUp J = Some released ->
      (if isDown then pressed else released) 0 btn m = (Thrown e, m0) ->
      (if isDown then pressed else released) 1 btn m0 = (Returned tt, m') ->
      run_attempts (attempts J isDown btn) m = (true, m')).
Proof.
  split; [| split; [| split; [| split; [| split; [| split]]]]].
  - unfold exportState, first_present. repeat case_match; congruence.
  - unfold importState, first_present. repeat case_match; congruence.
  - unfold press. repeat case_match; reflexivity.
  - intros btn Hm Hbtn. unfold press. now rewrite Hm, Hbtn.
  - intros before fn after m'. apply run_attempts_first.
  - intros Hc0 Hc1 Hdirect. unfold press.
    destruct (nesRef p) as [n |] eqn:Hn; [| reflexivity].
    destruct (buttonMap J key) as [btn |]; [| reflexivity].
    rewrite run_attempts_none by now apply attempts_absent.
    cbn [snd]. rewrite <- Hn. reflexivity.
  - split; [| split; [| split; [| split; [| split]]]].
    + intros btn through direct. subst through direct.
      unfold attempts, via_controller, via_nes, then_true, call_member.
      destruct (controllers_0 J) as [c0 |], (controller1 J) as [c1 |],
        (nes_buttonDown J) as [pressed |], (nes_buttonUp J) as [released |];
        cbn [run_attempts first_success option_map];
        try reflexivity;
        repeat (case_match; try reflexivity; try congruence).
    + intros btn c method m' Hc Hmethod Hcall.
      unfold attempts, via_controller. rewrite Hc.
      cbn [run_attempts]. unfold then_true, call_member.
      now rewrite Hmethod, Hcall.
    + intros btn c method m' Hc0 Hc Hmethod Hcall.
      unfold attempts, via_controller. rewrite Hc0, Hc.
      cbn [run_attempts]. unfold then_true, call_member.
      now rewrite Hmethod, Hcall.
    + intros btn c0 method0 e m0 c method m' Hc0 Hmethod0 Hcall0 Hc Hmethod Hcall.
      unfold attempts, via_controller. rewrite Hc0, Hc.
      cbn [run_attempts]. unfold then_true, call_member.
      now rewrite Hmethod0, Hcall0, Hmethod, Hcall.
    + intros btn pressed released m' Hc0 Hc1 Hdown Hup Hcall.
      unfold attempts, via_controller, via_nes. rewrite Hc0, Hc1, Hdown, Hup.
      cbn [run_attempts]. unfold then_true. now rewrite Hcall.
    + intros btn pressed released e m0 m' Hc0 Hc1 Hdown Hup Hcall0 Hcall.
      unfold attempts, via_controller, via_nes. rewrite Hc0, Hc1, Hdown, Hup.
      cbn [run_attempts]. unfold then_true. now rewrite Hcall0, Hcall.
Qed.

End AdapterFacts.

Lemma adapter_probing_witness :
  snd (press Toy.engine "A" true Toy.midgame)
  = set_nesRef
      (Some {| Toy.rom := Some (bin_of Toy.game); Toy.ticks := 4; Toy.pad := 1 |})
      Toy.midgame
  /\ run_attempts (attempts Toy.engine true 0) Toy.at_4
     = (true, {| Toy.rom := Some (bin_of Toy.game); Toy.ticks := 4; Toy.pad := 1 |})
  /\ run_attempts (attempts Scenes.padded true 3) Toy.at_4
     = (true, {| Toy.rom := Some (bin_of Toy.game); Toy.ticks := 4; Toy.pad := 8 |})
  /\ press Toy.bare "A" true Toy.midgame = (Returned tt, Toy.midgame).
Proof.
  pose proof (adapter_probing Toy.engine Toy.at_4 JNull "A" true Toy.midgame)
    as (_ & _ & _ & Hpress & _ & _ & _ & _ & _ & _ & _ & Hsecond).
  pose proof (adapter_probing Scenes.padded Toy.at_4 JNull "START" true Toy.midgame)
    as (_ & _ & _ & _ & _ & _ & _ & Hpad & _).
  pose proof (adapter_probing Toy.bare Toy.at_4 JNull "A" true Toy.midgame)
    as (_ & _ & _ & _ & _ & Habsent & _).
  split; [| split; [| split]].
  - exact (Hpress 0 eq_refl eq_refl).
  - exact (Hsecond 0 (Toy.hold true) (Toy.hold false)
             "TypeError: undefined is not an object" Toy.at_4
             {| Toy.rom := Some (bin_of Toy.game); Toy.ticks := 4; Toy.pad := 1 |}
             eq_refl eq_refl eq_refl eq_refl eq_refl eq_refl).
  - exact (Hpad 3 {| buttonDown := Some (Toy.hold true 1);
                     buttonUp := Some (Toy.hold false 1) |}
             (Toy.hold true 1)
             {| Toy.rom := Some (bin_of Toy.game); Toy.ticks := 4; Toy.pad := 8 |}
             eq_refl eq_refl eq_refl).
  - exact (Habsent eq_refl eq_refl (or_introl eq_refl)).
Defined.

(** C4, counterexample to the claim as it is worded.  On a build with none
    of the candidate shapes, a button event does not fail: [press] returns
    normally and the component, status line included, is as before; the
    same build makes [exportState] throw.  And on a build whose [toJSON]
    throws while its [serialize] works, the export throws: the shape that
    exists and succeeds is not used. *)
Lemma press_without_shapes_is_silent :
  press Toy.bare "START" true Toy.midgame = (Returned tt, Toy.midgame)
  /\ exportState Toy.bare (nesRef Toy.midgame)
     = (Thrown "This jsnes build does not expose a save-state API.",
        nesRef Toy.midgame)
  /\ exportState Toy.flaky (nesRef Toy.midgame)
     = (Thrown "toJSON failed", nesRef Toy.midgame)
  /\ (exists state,
        invoke Toy.snapshot
          {| Toy.rom := Some (bin_of Toy.game); Toy.ticks := 4; Toy.pad := 0 |}
        = (Returned state, nesRef Toy.midgame)).
Proof.
  split; [reflexivity |]. split; [reflexivity |]. split; [reflexivity |].
  eexists. reflexivity.
Qed.

Section LoadFacts.

Context {Sample Machine : Type}.
Context (J : jsnes Sample Machine) (B : host).
Implicit Types p : player Sample Machine.

(** C2 (load failures), as the component has it.  With a ROM key bound,
    [loadStateFromLocalStorage] reports "No save state found for this
    ROM." when the store has no text under the key, "Load failed:" with
    the parser's message when the text does not parse, and "Save state
    data is invalid." when the parsed envelope has no state; in each of
    these cases the status line is the only thing that changes, so the
    engine instance is the one it found.  The version written in the
    envelope is never read. *)
Theorem load_failures (now : Z) (p : player Sample Machine) (key : string) :
  getSaveStorageKey p = Some key ->
  (truthy_raw (localStorage p !! key) = None ->
   loadStateFromLocalStorage J B now p
   = setStatus "No save state found for this ROM." p
   /\ nesRef (loadStateFromLocalStorage J B now p) = nesRef p)
  /\ (forall raw e,
      truthy_raw (localStorage p !! key) = Some raw ->
      JSON_parse B raw = Thrown e ->
      loadStateFromLocalStorage J B now p
      = setStatus ("Load failed: " ++ err_text e) p
      /\ nesRef (loadStateFromLocalStorage J B now p) = nesRef p)
  /\ (forall raw payload,
      truthy_raw (localStorage p !! key) = Some raw ->
      JSON_parse B raw = Returned payload ->
      truthy_opt (get "state" (Some payload)) = false ->
      loadStateFromLocalStorage J B now p
      = setStatus "Save state data is invalid." p
      /\ nesRef (loadStateFromLocalStorage J B now p) = nesRef p).
Proof.
  intros Hkey. unfold loadStateFromLocalStorage. rewrite Hkey.
  split; [| split].
  - intros ->. split; reflexivity.
  - intros raw e -> ->. split; reflexivity.
  - intros raw payload -> -> Hstate. unfold or_null. rewrite Hstate.
    split; reflexivity.
Qed.



End LoadFacts.

Lemma load_failures_witness :
  status (loadStateFromLocalStorage Toy.engine Text.browser 0 Toy.midgame)
  = "No save state found for this ROM."
  /\ status (loadStateFromLocalStorage Toy.engine Text.browser 0
               (Toy.with_record "{oops"))
     = "Load failed: SyntaxError: Unexpected token"
  /\ status (loadStateFromLocalStorage Toy.engine Text.browser 0
               (Toy.with_record (Text.print Toy.stateless)))
     = "Save state data is invalid."
  /\ nesRef (loadStateFromLocalStorage Toy.engine Text.browser 0
               (Toy.with_record (Text.print Toy.stateless)))
     = Some Toy.at_4.
Proof.
  destruct (load_failures Toy.engine Text.browser 0 Toy.midgame Toy.slot eq_refl)
    as (Hnone & _ & _).
  destruct (load_failures Toy.engine Text.browser 0 (Toy.with_record "{oops")
              Toy.slot eq_refl) as (_ & Hparse & _).
  destruct (load_failures Toy.engine Text.browser 0
              (Toy.with_record (Text.print Toy.stateless)) Toy.slot eq_refl)
    as (_ & _ & Hstate).
  destruct (Hnone eq_refl) as [-> _].
  destruct (Hparse "{oops" "SyntaxError: Unexpected token" eq_refl eq_refl)
    as [-> _].
  destruct (Hstate (Text.print Toy.stateless) Toy.stateless eq_refl eq_refl eq_refl)
    as [-> ->].
  repeat split.
Defined.

(** C2, counterexample to the claim as it is worded.  A record whose
    envelope says format version 2, above the supported version 1, is not
    refused: [load] imports its state, replaces the engine instance, and
    reports a loaded save. *)
Lemma future_version_is_imported :
  JSON_parse Text.browser (Text.print Toy.from_the_future)
  = Returned Toy.from_the_future
  /\ get "version" (get "meta" (Some Toy.from_the_future)) = Some (JNum 2)
  /\ Z.of_N SAVE_VERSION < 2
  /\ nesRef (Toy.with_record (Text.print Toy.from_the_future)) = Some Toy.at_4
  /\ nesRef (loadStateFromLocalStorage Toy.engine Text.browser 0
               (Toy.with_record (Text.print Toy.from_the_future)))
     = Some {| Toy.rom := Some (bin_of Toy.game); Toy.ticks := 10; Toy.pad := 0 |}
  /\ status (loadStateFromLocalStorage Toy.engine Text.browser 0
               (Toy.with_record (Text.print Toy.from_the_future)))
     = "Loaded save (2026-01-01T12:00:00.000Z)".
Proof. repeat split. Qed.



(* ===================================================================== *)
(** * What every session keeps *)
(* ===================================================================== *)

Section QueueDiscipline.

Context {Sample Machine : Type}.
Context (zero : Sample) (J : jsnes Sample Machine) (B : host).
Implicit Types p : player Sample Machine.

(** A condition on queues that the three queue operations keep. *)
Variable Q : list Sample -> Prop.
Hypothesis Q_empty : Q [].
Hypothesis Q_enqueue : forall l r q, Q q -> Q (onAudioSample l r q).
Hypothesis Q_pull : forall n q, Q q -> Q (snd (onaudioprocess zero n q)).

Lemma queue_after_keeps cs : forall q : list Sample, Q q -> Q (queue_after cs q).
Proof.
  unfold queue_after.
  induction cs as [| c cs IH]; intros q Hq; cbn [fold_left]; [exact Hq |].
  apply IH. destruct c; [exact Hq | now apply Q_enqueue].
Qed.

Lemma drawOneFrame_queue p : Q (audioQRef p) -> Q (audioQRef (drawOneFrame J p)).
Proof.
  intros Hq. unfold drawOneFrame. destruct (nesRef p) as [m |]; [| exact Hq].
  destruct (frame J m) as [[cs o] m']. rewrite run_callbacks_eq.
  now apply queue_after_keeps.
Qed.

(** The component changes its sample queue in three ways only: the engine
    enqueues a pair, the audio device pulls a block, a handler clears it. *)
Lemma handle_queue p e : Q (audioQRef p) -> Q (audioQRef (handle zero J B p e)).
Proof.
  intros Hq. destruct e; cbn [handle].
  - unfold loadRom_start. repeat case_match; exact Hq.
  - unfold loadRom_settle. destruct (pending_reads p !! i) as [f |]; [| exact Hq].
    unfold loadRom_resume.
    destruct (loadROM J (Some (bin_of f)) (createNES J)) as [[[] | e] n];
      [| exact Hq].
    set (drawn := drawOneFrame J _).
    assert (Q (audioQRef drawn)) as Hdrawn.
    { apply drawOneFrame_queue.
      rewrite audioQRef_stop, audioQRef_startAutosaveTimer. exact Q_empty. }
    assert (Q (audioQRef (refreshSaveIndicators B drawn))) as Hshown
      by now rewrite audioQRef_refreshSaveIndicators.
    case_match; exact Hshown.
  - unfold play, ensureAudio. repeat case_match; exact Hq.
  - exact Hq.
  - unfold reset. case_match; [exact Hq |].
    case_match. case_match; cbn [snd]; [| exact Q_empty].
    apply drawOneFrame_queue. exact Q_empty.
  - unfold saveStateToLocalStorage. repeat case_match; exact Hq.
  - unfold loadStateFromLocalStorage. repeat case_match; try exact Hq.
    apply drawOneFrame_queue. exact Q_empty.
  - unfold deleteStateFromLocalStorage. case_match; exact Hq.
  - unfold down, press. repeat case_match; exact Hq.
  - unfold up, press. repeat case_match; exact Hq.
  - unfold loop. case_match; [exact Hq |].
    destruct (nesRef p) as [m |]; [| exact Hq].
    destruct (frame J m) as [[cs o] m'].
    assert (Q (audioQRef (run_callbacks cs (set_nesRef (Some m') p)))) as Hrun
      by (rewrite run_callbacks_eq; now apply queue_after_keeps).
    destruct o; exact Hrun.
  - unfold audio_tick.
    destruct (audioNodeRef p) as [node |]; [| exact Hq].
    destruct (connected node); [| exact Hq].
    pose proof (Q_pull (bufferSize node) _ Hq) as Hpull.
    destruct (onaudioprocess zero (bufferSize node) (audioQRef p)). exact Hpull.
  - unfold autosave, saveStateToLocalStorage. repeat case_match; exact Hq.
  - unfold autosave, saveStateToLocalStorage. repeat case_match; exact Hq.
Qed.

Lemma session_queue es : forall p,
  Q (audioQRef p) -> Q (audioQRef (session zero J B es p)).
Proof.
  unfold session. induction es as [| e es IH]; intros p Hq; cbn [fold_left].
  - exact Hq.
  - apply IH, handle_queue, Hq.
Qed.

End QueueDiscipline.

Section QueueBound.

Context {Sample Machine : Type}.
Context (zero : Sample) (J : jsnes Sample Machine) (B : host).

Lemma onaudioprocess_shrinks (n : nat) (q : list Sample) :
  qlen (snd (onaudioprocess zero n q)) <= qlen q.
Proof. destruct (qlen_onaudioprocess zero n q) as (k & Hk & Hlen). lia. Qed.

(** X1.  Whatever happens to a mounted component, its sample queue never
    holds more than [max] samples. *)
Theorem session_within_cap (es : list event) (store : gmap string string)
    (audio : option audio_state) :
  within_cap (session zero J B es (mounted J store audio)).
Proof.
  unfold within_cap.
  apply (session_queue zero J B (fun q => qlen q <= max)).
  - unfold qlen, max. cbn. lia.
  - intros l r q _. rewrite qlen_onAudioSample. lia.
  - intros n q Hq. pose proof (onaudioprocess_shrinks n q). lia.
  - unfold qlen, max. cbn. lia.
Qed.

End QueueBound.

Section CanvasDiscipline.

Context {Sample Machine : Type}.
Context (zero : Sample) (J : jsnes Sample Machine) (B : host).
Implicit Types p : player Sample Machine.

(** A condition on image data that painting a frame keeps. *)
Variable C : list Z -> Prop.
Hypothesis C_paint : forall fb data, C data -> C (paint USE_ABGR fb data).

Lemma canvas_after_keeps (cs : list (callback Sample)) : forall canvas,
  shows C canvas -> shows C (canvas_after cs canvas).
Proof.
  unfold canvas_after.
  induction cs as [| c cs IH]; intros canvas Hc; cbn [fold_left]; [exact Hc |].
  apply IH. destruct c as [fb | l r]; [| exact Hc].
  destruct Hc as (data & -> & Hdata). exists (paint USE_ABGR fb data).
  split; [reflexivity | now apply C_paint].
Qed.

Lemma drawOneFrame_canvas p :
  shows C (canvasRef p) -> shows C (canvasRef (drawOneFrame J p)).
Proof.
  intros Hc. unfold drawOneFrame. destruct (nesRef p) as [m |]; [| exact Hc].
  destruct (frame J m) as [[cs o] m']. rewrite run_callbacks_eq.
  now apply canvas_after_keeps.
Qed.

Lemma canvasRef_startAutosaveTimer p :
  canvasRef (startAutosaveTimer p) = canvasRef p.
Proof. unfold startAutosaveTimer, stopAutosaveTimer. case_match; reflexivity. Qed.

Lemma canvasRef_refreshSaveIndicators p :
  canvasRef (refreshSaveIndicators B p) = canvasRef p.
Proof. unfold refreshSaveIndicators. repeat case_match; reflexivity. Qed.

(** The component changes the canvas in one way only: [onFrame] paints a
    frame buffer over the image data. *)
Lemma handle_canvas p e :
  shows C (canvasRef p) -> shows C (canvasRef (handle zero J B p e)).
Proof.
  intros Hc. destruct e; cbn [handle].
  - unfold loadRom_start. repeat case_match; exact Hc.
  - unfold loadRom_settle. destruct (pending_reads p !! i) as [f |]; [| exact Hc].
    unfold loadRom_resume.
    destruct (loadROM J (Some (bin_of f)) (createNES J)) as [[[] | e] n];
      [| exact Hc].
    set (drawn := drawOneFrame J _).
    assert (shows C (canvasRef drawn)) as Hdrawn.
    { apply drawOneFrame_canvas.
      change (canvasRef (stop ?x)) with (canvasRef x).
      rewrite canvasRef_startAutosaveTimer. exact Hc. }
    assert (shows C (canvasRef (refreshSaveIndicators B drawn))) as Hshown
      by now rewrite canvasRef_refreshSaveIndicators.
    case_match; exact Hshown.
  - unfold play, ensureAudio. repeat case_match; exact Hc.
  - exact Hc.
  - unfold reset. case_match; [exact Hc |].
    case_match. case_match; cbn [snd]; [| exact Hc].
    apply drawOneFrame_canvas. exact Hc.
  - unfold saveStateToLocalStorage. repeat case_match; exact Hc.
  - unfold loadStateFromLocalStorage. repeat case_match; try exact Hc.
    apply drawOneFrame_canvas. exact Hc.
  - unfold deleteStateFromLocalStorage. case_match; exact Hc.
  - unfold down, press. repeat case_match; exact Hc.
  - unfold up, press. repeat case_match; exact Hc.
  - unfold loop. case_match; [exact Hc |].
    destruct (nesRef p) as [m |]; [| exact Hc].
    destruct (frame J m) as [[cs o] m'].
    assert (shows C (canvasRef (run_callbacks cs (set_nesRef (Some m') p)))) as Hrun
      by (rewrite run_callbacks_eq; now apply canvas_after_keeps).
    destruct o; exact Hrun.
  - unfold audio_tick. repeat case_match; exact Hc.
  - unfold autosave, saveStateToLocalStorage. repeat case_match; exact Hc.
  - unfold autosave, saveStateToLocalStorage. repeat case_match; exact Hc.
Qed.

Lemma session_canvas es : forall p,
  shows C (canvasRef p) -> shows C (canvasRef (session zero J B es p)).
Proof.
  unfold session. induction es as [| e es IH]; intros p Hc; cbn [fold_left].
  - exact Hc.
  - apply IH, handle_canvas, Hc.
Qed.

End CanvasDiscipline.

Section CanvasOpaque.

Context {Sample Machine : Type}.
Context (zero : Sample) (J : jsnes Sample Machine) (B : host).

Lemma band_255_byte (x : Z) : 0 <= band x 255 < 256.
Proof. rewrite band_255. apply Z.mod_pos_bound. lia. Qed.

Lemma put_pixel_bytes abgr i p data :
  Forall (fun b => 0 <= b < 256) data ->
  Forall (fun b => 0 <= b < 256) (put_pixel abgr i p data).
Proof.
  intros Hdata. unfold put_pixel.
  destruct abgr; repeat apply Forall_insert;
    try exact Hdata; (apply band_255_byte || lia).
Qed.

Lemma paint_from_bytes abgr fb : forall i data,
  Forall (fun b => 0 <= b < 256) data ->
  Forall (fun b => 0 <= b < 256) (paint_from abgr i fb data).
Proof.
  induction fb as [| p fb IH]; intros i data Hdata; cbn [paint_from].
  - exact Hdata.
  - apply IH, put_pixel_bytes, Hdata.
Qed.

Lemma paint_alpha abgr fb data (k : nat) :
  (forall j : nat, (4 * j + 3 < length data)%nat -> data !! (4 * j + 3)%nat = Some 255) ->
  (4 * k + 3 < length (paint abgr fb data))%nat ->
  paint abgr fb data !! (4 * k + 3)%nat = Some 255.
Proof.
  intros Hdata Hk. unfold paint in *. rewrite paint_from_length in Hk.
  destruct (decide (k < length fb)%nat) as [Hin | Hout].
  - destruct (lookup_lt_is_Some_2 fb k Hin) as [p Hp].
    replace (4 * k + 3)%nat with ((0 + k) * 4 + 3)%nat by lia.
    rewrite (paint_from_lookup abgr fb 0 data k 3 p Hp) by lia.
    destruct abgr; reflexivity.
  - rewrite paint_from_after by (cbn; lia). now apply Hdata.
Qed.

Lemma paint_opaque fb data :
  opaque_image data -> opaque_image (paint USE_ABGR fb data).
Proof.
  intros (Hlen & Hbytes & Halpha). split; [| split].
  - unfold paint. now rewrite paint_from_length.
  - now apply paint_from_bytes.
  - intros k Hk. now apply paint_alpha.
Qed.

Lemma black_length (n : nat) :
  length (concat (repeat [0; 0; 0; 255] n)) = (4 * n)%nat.
Proof. induction n as [| n IH]; cbn [repeat concat]; [reflexivity |]. rewrite length_app, IH. cbn. lia. Qed.

Lemma black_alpha (n k : nat) :
  (k < n)%nat -> concat (repeat [0; 0; 0; 255] n) !! (4 * k + 3)%nat = Some 255.
Proof.
  revert k. induction n as [| n IH]; intros k Hk; [lia |].
  cbn [repeat concat]. destruct k as [| k].
  - reflexivity.
  - rewrite lookup_app_r by (cbn; lia).
    cbn [length].
    replace (4 * S k + 3 - 4)%nat with (4 * k + 3)%nat by lia.
    apply IH. lia.
Qed.

Lemma black_bytes (n : nat) :
  Forall (fun b => 0 <= b < 256) (concat (repeat [0; 0; 0; 255] n)).
Proof.
  induction n as [| n IH]; cbn [repeat concat]; [constructor |].
  apply Forall_app. split; [| exact IH]. repeat constructor; lia.
Qed.

Lemma black_opaque : opaque_image black.
Proof.
  unfold opaque_image, black. rewrite black_length. split; [| split].
  - unfold W, H. lia.
  - apply black_bytes.
  - intros k Hk. apply black_alpha. lia.
Qed.

(** X2.  Whatever happens to a mounted component, its canvas holds W x H
    pixels of four bytes, every value in it is a byte, so that storing it
    in a clamped byte array changes nothing, and every pixel is fully
    opaque. *)
Theorem session_canvas_opaque (es : list event) (store : gmap string string)
    (audio : option audio_state) :
  canvas_opaque (session zero J B es (mounted J store audio)).
Proof.
  unfold canvas_opaque.
  apply (session_canvas zero J B opaque_image paint_opaque).
  exists black. split; [reflexivity | apply black_opaque].
Qed.

End CanvasOpaque.

Section LoopDiscipline.

Context {Sample Machine : Type}.
Context (zero : Sample) (J : jsnes Sample Machine) (B : host).
Implicit Types p : player Sample Machine.

Lemma drawOneFrame_loop_refs p :
  runningRef (drawOneFrame J p) = runningRef p
  /\ rafRef (drawOneFrame J p) = rafRef p.
Proof.
  unfold drawOneFrame. destruct (nesRef p) as [m |]; [| split; reflexivity].
  destruct (frame J m) as [[cs o] m']. rewrite run_callbacks_eq.
  split; reflexivity.
Qed.

Lemma refreshSaveIndicators_loop_refs p :
  runningRef (refreshSaveIndicators B p) = runningRef p
  /\ rafRef (refreshSaveIndicators B p) = rafRef p.
Proof. unfold refreshSaveIndicators. repeat case_match; split; reflexivity. Qed.

Lemma stopped_clean_drawn p :
  rafRef p = None -> stopped_clean (drawOneFrame J p).
Proof.
  intros Hraf _. now rewrite (proj2 (drawOneFrame_loop_refs p)).
Qed.

Lemma handle_stopped_clean p e :
  stopped_clean p -> stopped_clean (handle zero J B p e).
Proof.
  intros Hp. destruct e; cbn [handle].
  - unfold loadRom_start. repeat case_match; exact Hp.
  - unfold loadRom_settle. destruct (pending_reads p !! i) as [f |]; [| exact Hp].
    unfold loadRom_resume.
    destruct (loadROM J (Some (bin_of f)) (createNES J)) as [[[] | e] n];
      [| exact Hp].
    set (drawn := drawOneFrame J _).
    assert (rafRef (refreshSaveIndicators B drawn) = None) as Hraf.
    { rewrite (proj2 (refreshSaveIndicators_loop_refs drawn)).
      unfold drawn. now rewrite (proj2 (drawOneFrame_loop_refs _)). }
    case_match; intros _; exact Hraf.
  - unfold play. case_match; [exact Hp |].
    destruct (ensureAudio_keeps p) as (Krun & _ & Kraf & _).
    case_match eqn:Hrun.
    + intros Hstopped. congruence.
    + intros Hstopped. discriminate Hstopped.
  - intros _. reflexivity.
  - unfold reset. case_match; [exact Hp |].
    case_match. case_match; cbn [snd].
    + now apply stopped_clean_drawn.
    + intros _. reflexivity.
  - unfold saveStateToLocalStorage. repeat case_match; exact Hp.
  - unfold loadStateFromLocalStorage. repeat case_match; try exact Hp;
      try (intros _; reflexivity).
    now apply stopped_clean_drawn.
  - unfold deleteStateFromLocalStorage. case_match; exact Hp.
  - unfold down, press. repeat case_match; exact Hp.
  - unfold up, press. repeat case_match; exact Hp.
  - unfold loop. destruct (runningRef p) eqn:Hrun; cbn [negb]; [| exact Hp].
    destruct (nesRef p) as [m |].
    + destruct (frame J m) as [[cs o] m'].
      destruct o; cbn [snd]; rewrite run_callbacks_eq; intros Hstopped;
        cbn in Hstopped; congruence.
    + cbn [snd]. intros Hstopped. cbn in Hstopped. congruence.
  - unfold audio_tick. repeat case_match; exact Hp.
  - unfold autosave, saveStateToLocalStorage. repeat case_match; exact Hp.
  - unfold autosave, saveStateToLocalStorage. repeat case_match; exact Hp.
Qed.

(** X3.  Whatever happens to a mounted component, no display refresh is
    left scheduled while the loop flag is down: every handler that lowers
    the flag cancels the pending refresh with it.  And after Pause, display
    refreshes, however many, change nothing: no frame runs while paused. *)
Theorem session_stopped_clean (es : list event) (store : gmap string string)
    (audio : option audio_state) (n : nat) (p : player Sample Machine) :
  stopped_clean (session zero J B es (mounted J store audio))
  /\ session zero J B (replicate n DisplayRefresh) (stop p) = stop p.
Proof.
  split.
  - unfold session.
    assert (stopped_clean (mounted J store audio)) as Hstart by (intros _; reflexivity).
    revert Hstart. generalize (mounted J store audio).
    induction es as [| e es IH]; intros q Hq; cbn [fold_left].
    + exact Hq.
    + apply IH, handle_stopped_clean, Hq.
  - unfold session. induction n as [| n IH]; [reflexivity |].
    cbn [replicate fold_left]. exact IH.
Qed.

End LoopDiscipline.

Section RomDiscipline.

Context {Sample Machine : Type}.
Context (zero : Sample) (J : jsnes Sample Machine) (B : host).
Implicit Types p q : player Sample Machine.






(** An accepted file has a name. *)
Lemma accepts_named (f : file) : accepts f = true -> truthy_string (name f) = true.
Proof.
  unfold accepts. destruct (name f) as [| c rest]; [discriminate | reflexivity].
Qed.








End RomDiscipline.

(* ===================================================================== *)
(** * Save slots *)
(* ===================================================================== *)

Section SlotFacts.

Context {Sample Machine : Type}.
Context (zero : Sample) (J : jsnes Sample Machine) (B : host).
Implicit Types p : player Sample Machine.

Lemma string_app_inj (prefix a b : string) :
  (prefix ++ a)%string = (prefix ++ b)%string -> a = b.
Proof.
  induction prefix as [| c prefix IH]; cbn; intros Heq; [exact Heq |].
  injection Heq as Heq. now apply IH.
Qed.

Lemma localStorage_drawOneFrame p :
  localStorage (drawOneFrame J p) = localStorage p.
Proof.
  unfold drawOneFrame. destruct (nesRef p) as [m |]; [| reflexivity].
  destruct (frame J m) as [[cs o] m']. now rewrite run_callbacks_eq.
Qed.

Lemma localStorage_refreshSaveIndicators p :
  localStorage (refreshSaveIndicators B p) = localStorage p.
Proof. unfold refreshSaveIndicators. repeat case_match; reflexivity. Qed.

Lemma localStorage_startAutosaveTimer p :
  localStorage (startAutosaveTimer p) = localStorage p.
Proof. unfold startAutosaveTimer, stopAutosaveTimer. case_match; reflexivity. Qed.

Lemma localStorage_loadRom_resume f p :
  localStorage (loadRom_resume J B f p) = localStorage p.
Proof.
  unfold loadRom_resume.
  destruct (loadROM J (Some (bin_of f)) (createNES J)) as [[[] | e] n];
    [| reflexivity].
  set (drawn := drawOneFrame J _).
  assert (localStorage (refreshSaveIndicators B drawn) = localStorage p) as Hshown.
  { rewrite localStorage_refreshSaveIndicators. unfold drawn.
    rewrite localStorage_drawOneFrame.
    change (localStorage (stop ?x)) with (localStorage x).
    now rewrite localStorage_startAutosaveTimer. }
  case_match; exact Hshown.
Qed.

Lemma localStorage_loadRom f p : localStorage (loadRom J B f p) = localStorage p.
Proof.
  unfold loadRom. destruct f as [f |]; [| reflexivity].
  destruct (accepts f); [| reflexivity]. now rewrite localStorage_loadRom_resume.
Qed.

Lemma localStorage_save silent now p (k : string) :
  getSaveStorageKey p <> Some k ->
  localStorage (snd (saveStateToLocalStorage J B silent now p)) !! k
  = localStorage p !! k.
Proof.
  intros Hk. unfold saveStateToLocalStorage.
  destruct (getSaveStorageKey p) as [key |]; [| now destruct silent].
  destruct (nesRef p) as [m |]; [| reflexivity].
  destruct (exportState J (Some m)) as [[state | e] n]; destruct silent; cbn;
    try reflexivity; apply lookup_insert_ne; congruence.
Qed.

(** X6.  A save slot belongs to one ROM.  No event writes or removes a
    record under a key other than the storage key of the ROM bound when
    the event arrives; choosing a file never touches the store; and two
    sessions use the same slot only if they have the same ROM key. *)
Theorem slots_are_separate (e : event) (p q : player Sample Machine) (k : string) :
  getSaveStorageKey p <> Some k ->
  localStorage (handle zero J B p e) !! k = localStorage p !! k
  /\ (forall f, localStorage (loadRom J B f p) = localStorage p)
  /\ (is_Some (getSaveStorageKey p) ->
      getSaveStorageKey p = getSaveStorageKey q -> romKeyRef p = romKeyRef q).
Proof.
  intros Hk. split; [| split].
  - destruct e; cbn [handle].
    + unfold loadRom_start. repeat case_match; reflexivity.
    + unfold loadRom_settle. case_match; [| reflexivity].
      now rewrite localStorage_loadRom_resume.
    + unfold play, ensureAudio. repeat case_match; reflexivity.
    + reflexivity.
    + unfold reset. repeat case_match; cbn [snd];
        rewrite ?localStorage_drawOneFrame; reflexivity.
    + now apply localStorage_save.
    + unfold loadStateFromLocalStorage. repeat case_match;
        rewrite ?localStorage_drawOneFrame; reflexivity.
    + unfold deleteStateFromLocalStorage.
      destruct (getSaveStorageKey p) as [key |]; [| reflexivity].
      cbn. apply lookup_delete_ne. congruence.
    + unfold down, press. repeat case_match; reflexivity.
    + unfold up, press. repeat case_match; reflexivity.
    + unfold loop. repeat case_match; cbn [snd];
        rewrite ?run_callbacks_eq; reflexivity.
    + unfold audio_tick. repeat case_match; reflexivity.
    + unfold autosave. case_match; [now apply localStorage_save | reflexivity].
    + unfold autosave. case_match; [now apply localStorage_save | reflexivity].
  - intros f. apply localStorage_loadRom.
  - unfold getSaveStorageKey. intros [key Hkey].
    destruct (romKeyRef p) as [a |]; [| discriminate Hkey].
    destruct (truthy_string a); [| discriminate Hkey].
    destruct (romKeyRef q) as [b |]; [| discriminate].
    destruct (truthy_string b); [| discriminate].
    intros Heq. injection Heq as Heq. f_equal.
    now apply string_app_inj in Heq.
Qed.

(** X7.  Deleting is idempotent, and a load that follows a delete finds
    nothing: it reports that no save exists for the ROM, or, without a ROM,
    asks for one, and changes nothing else. *)
Theorem delete_then_load (now : Z) (p : player Sample Machine) :
  deleteStateFromLocalStorage (deleteStateFromLocalStorage p)
  = deleteStateFromLocalStorage p
  /\ loadStateFromLocalStorage J B now (deleteStateFromLocalStorage p)
     = setStatus (match getSaveStorageKey p with
                  | Some _ => "No save state found for this ROM."
                  | None => "Load a ROM before loading a save."
                  end) (deleteStateFromLocalStorage p)
  /\ hasSave (refreshSaveIndicators B (deleteStateFromLocalStorage p)) = false.
Proof.
  unfold deleteStateFromLocalStorage, loadStateFromLocalStorage,
    refreshSaveIndicators.
  destruct (getSaveStorageKey p) as [key |] eqn:Hkey.
  - assert (getSaveStorageKey
              (setStatus "Deleted save state for this ROM."
                 (setLastSavedAt None
                    (setHasSave false
                       (set_localStorage (delete key (localStorage p)) p))))
            = Some key) as Hkey' by exact Hkey.
    rewrite Hkey'. cbn [localStorage set_localStorage setStatus setLastSavedAt setHasSave].
    change (localStorage (setStatus _ (setLastSavedAt _ (setHasSave _ (set_localStorage ?s _)))))
      with s.
    rewrite lookup_delete_eq, delete_id by apply lookup_delete_eq.
    repeat split.
  - rewrite Hkey. repeat split.
Qed.

End SlotFacts.

Lemma slots_are_separate_witness :
  localStorage (handle 0 Toy.engine Text.browser Toy.midgame (ClickSave Toy.noon))
    !! "retro-arcade-web:nes:savestate:v1:other.nes:4:0"
  = localStorage Toy.midgame !! "retro-arcade-web:nes:savestate:v1:other.nes:4:0".
Proof.
  assert (getSaveStorageKey Toy.midgame
          <> Some "retro-arcade-web:nes:savestate:v1:other.nes:4:0") as Hother
    by (vm_compute; discriminate).
  exact (proj1 (slots_are_separate 0 Toy.engine Text.browser (ClickSave Toy.noon)
                  Toy.midgame Toy.midgame
                  "retro-arcade-web:nes:savestate:v1:other.nes:4:0" Hother)).
Defined.

(* ===================================================================== *)
(** * Saving and loading: the other paths *)
(* ===================================================================== *)

Section SaveLoadEdges.

Context {Sample Machine : Type}.
Context (J : jsnes Sample Machine) (B : host).
Implicit Types p : player Sample Machine.

(** What a save that succeeds leaves. *)
Lemma save_eq (silent : bool) (now : string) p (k : string) (m : Machine)
    (state : json) (n : option Machine) :
  romKeyRef p = Some k -> truthy_string k = true -> nesRef p = Some m ->
  exportState J (Some m) = (Returned state, n) ->
  saveStateToLocalStorage J B silent now p
  = (true,
     let saved :=
       setLastSavedAt (Some (JStr now))
         (setHasSave true
            (set_localStorage
               (<[("retro-arcade-web:nes:savestate:v1:" ++ k)%string :=
                    JSON_stringify B (envelope p k now state)]> (localStorage p))
               (set_nesRef n p))) in
     if silent then saved
     else setStatus ("Saved state (" ++ toLocaleString B (JStr now) ++ ")") saved).
Proof.
  intros Hk Ht Hm Hexport. unfold saveStateToLocalStorage.
  rewrite (getSaveStorageKey_bound p k Hk Ht), Hm, Hexport, Hk.
  destruct silent; reflexivity.
Qed.

(** X8.  The save indicators agree with the store after a save: when the
    text stored parses back to the envelope, re-reading the indicators from
    the store gives what the save has set, a save at the time of the
    clock. *)
Theorem save_then_refresh (silent : bool) (now : string)
    (p : player Sample Machine) (k : string) (m : Machine) (state : json)
    (n : option Machine) :
  romKeyRef p = Some k -> truthy_string k = true -> nesRef p = Some m ->
  exportState J (Some m) = (Returned state, n) ->
  truthy_string now = true ->
  truthy_string (JSON_stringify B (envelope p k now state)) = true ->
  JSON_parse B (JSON_stringify B (envelope p k now state))
  = Returned (envelope p k now state) ->
  refreshSaveIndicators B (snd (saveStateToLocalStorage J B silent now p))
  = snd (saveStateToLocalStorage J B silent now p)
  /\ hasSave (snd (saveStateToLocalStorage J B silent now p)) = true
  /\ lastSavedAt (snd (saveStateToLocalStorage J B silent now p)) = Some (JStr now).
Proof.
  intros Hk Ht Hm Hexport Hnow Hraw Hparse.
  rewrite (save_eq silent now p k m state n Hk Ht Hm Hexport). cbn [snd].
  set (text := JSON_stringify B (envelope p k now state)) in *.
  assert (forall saved : player Sample Machine,
            romKeyRef saved = Some k ->
            localStorage saved
            = <[("retro-arcade-web:nes:savestate:v1:" ++ k)%string := text]>
                (localStorage p) ->
            hasSave saved = true -> lastSavedAt saved = Some (JStr now) ->
            refreshSaveIndicators B saved = saved) as Hrefresh.
  { intros saved Sk Sstore Shas Sat. unfold refreshSaveIndicators.
    rewrite (getSaveStorageKey_bound saved k Sk Ht), Sstore, lookup_insert_eq.
    cbn [truthy_raw]. rewrite Hraw, Hparse.
    unfold savedAt_of, envelope.
    cbn [get assoc String.eqb Ascii.eqb Bool.eqb].
    unfold or_null. cbn [truthy_opt truthy]. rewrite Hnow.
    rewrite <- Shas, <- Sat. reflexivity. }
  destruct silent; (split; [apply Hrefresh; (exact Hk || reflexivity) | split; reflexivity]).
Qed.

(** X9.  A snapshot that is falsy, such as [null], [0] or the empty
    string, is saved like any other but cannot be loaded back: the load
    that follows reports "Save state data is invalid." and keeps the
    engine. *)
Theorem falsy_snapshot_is_lost (silent : bool) (nowIso : string) (now : Z)
    (p : player Sample Machine) (k : string) (m : Machine) (state : json)
    (n : option Machine) :
  romKeyRef p = Some k -> truthy_string k = true -> nesRef p = Some m ->
  exportState J (Some m) = (Returned state, n) ->
  truthy state = false ->
  truthy_string (JSON_stringify B (envelope p k nowIso state)) = true ->
  JSON_parse B (JSON_stringify B (envelope p k nowIso state))
  = Returned (envelope p k nowIso state) ->
  fst (saveStateToLocalStorage J B silent nowIso p) = true
  /\ loadStateFromLocalStorage J B now
       (snd (saveStateToLocalStorage J B silent nowIso p))
     = setStatus "Save state data is invalid."
         (snd (saveStateToLocalStorage J B silent nowIso p)).
Proof.
  intros Hk Ht Hm Hexport Hstate Hraw Hparse.
  rewrite (save_eq silent nowIso p k m state n Hk Ht Hm Hexport). cbn [fst snd].
  split; [reflexivity |].
  set (text := JSON_stringify B (envelope p k nowIso state)) in *.
  assert (forall saved : player Sample Machine,
            romKeyRef saved = Some k ->
            localStorage saved
            = <[("retro-arcade-web:nes:savestate:v1:" ++ k)%string := text]>
                (localStorage p) ->
            loadStateFromLocalStorage J B now saved
            = setStatus "Save state data is invalid." saved) as Hload.
  { intros saved Sk Sstore. unfold loadStateFromLocalStorage.
    rewrite (getSaveStorageKey_bound saved k Sk Ht), Sstore, lookup_insert_eq.
    cbn [truthy_raw]. rewrite Hraw, Hparse.
    unfold envelope at 1. cbn [get assoc String.eqb Ascii.eqb Bool.eqb].
    unfold or_null. cbn [truthy_opt]. now rewrite Hstate. }
  destruct silent; apply Hload; (exact Hk || reflexivity).
Qed.

(** X10.  On an engine build without any export method, a manual save
    changes the status line to the adapter's error and nothing else; a
    silent save changes nothing at all; neither touches the store, and both
    answer [false]. *)
Theorem save_on_unsupported_build (silent : bool) (now : string)
    (p : player Sample Machine) (k : string) (m : Machine) :
  romKeyRef p = Some k -> truthy_string k = true -> nesRef p = Some m ->
  first_present [toJSON J; serialize J; saveState J; getState J] = None ->
  saveStateToLocalStorage J B silent now p
  = (false,
     if silent then p
     else setStatus
            "Save failed: This jsnes build does not expose a save-state API." p).
Proof.
  intros Hk Ht Hm Hnone.
  assert (exportState J (Some m)
          = (Thrown "This jsnes build does not expose a save-state API.", Some m))
    as Hexport.
  { unfold exportState. cbn [first_present] in Hnone.
    destruct (toJSON J); [discriminate |]. destruct (serialize J); [discriminate |].
    destruct (saveState J); [discriminate |]. destruct (getState J); [discriminate |].
    reflexivity. }
  unfold saveStateToLocalStorage.
  rewrite (getSaveStorageKey_bound p k Hk Ht), Hm, Hexport.
  rewrite <- Hm. destruct silent; reflexivity.
Qed.

(** X11.  A load that gets past the checks of the record and then fails,
    because the engine rejects the retained ROM or the import throws, has
    already stopped the loop: it reports "Load failed", the session is left
    paused, and the engine, the queue and the canvas are the ones it
    found. *)
Theorem load_fails_late (now : Z) (p : player Sample Machine) (key raw : string)
    (payload state : json) (e : string) :
  getSaveStorageKey p = Some key ->
  truthy_raw (localStorage p !! key) = Some raw ->
  JSON_parse B raw = Returned payload ->
  or_null (get "state" (Some payload)) = Some state ->
  (fst (loadROM J (romBinRef p) (createNES J)) = Thrown e
   \/ exists booted,
        loadROM J (romBinRef p) (createNES J) = (Returned tt, booted)
        /\ fst (importState J (Some booted) state) = Thrown e) ->
  loadStateFromLocalStorage J B now p
  = setStatus ("Load failed: " ++ err_text e) (stop p).
Proof.
  intros Hkey Hraw Hparse Hstate Hfail. unfold loadStateFromLocalStorage.
  rewrite Hkey, Hraw, Hparse, Hstate. cbv zeta.
  change (romBinRef (stop p)) with (romBinRef p).
  destruct Hfail as [Hboot | (booted & Hboot & Himport)].
  - destruct (loadROM J (romBinRef p) (createNES J)) as [o n]. cbn [fst] in Hboot.
    now rewrite Hboot.
  - rewrite Hboot.
    destruct (importState J (Some booted) state) as [o n]. cbn [fst] in Himport.
    now rewrite Himport.
Qed.

(** X12.  An autosave is silent and leaves play alone: whatever it does,
    it can only change the store, the two save indicators and the engine
    instance that was asked for a snapshot.  The status line, the loop, the
    canvas and the queue are as before; and without a ROM it does
    nothing. *)
Theorem autosave_is_silent (now : string) (p : player Sample Machine) :
  autosave J B now p
  = setLastSavedAt (lastSavedAt (autosave J B now p))
      (setHasSave (hasSave (autosave J B now p))
         (set_localStorage (localStorage (autosave J B now p))
            (set_nesRef (nesRef (autosave J B now p)) p)))
  /\ (getSaveStorageKey p = None -> autosave J B now p = p).
Proof.
  unfold autosave, saveStateToLocalStorage. split.
  - repeat case_match; reflexivity.
  - intros ->. repeat case_match; reflexivity.
Qed.

End SaveLoadEdges.

Lemma save_then_refresh_witness :
  refreshSaveIndicators Text.browser
    (snd (saveStateToLocalStorage Toy.engine Text.browser false Toy.noon Toy.midgame))
  = snd (saveStateToLocalStorage Toy.engine Text.browser false Toy.noon Toy.midgame).
Proof.
  exact (proj1 (save_then_refresh Toy.engine Text.browser false Toy.noon
                  Toy.midgame "game.nes:4:7c826827" Toy.at_4
                  (JObj [("ticks", JNum 4); ("pad", JNum 0)]) (Some Toy.at_4)
                  eq_refl eq_refl eq_refl eq_refl eq_refl eq_refl eq_refl)).
Defined.

Lemma falsy_snapshot_is_lost_witness :
  status (loadStateFromLocalStorage Scenes.hollow Text.browser 0
            (snd (saveStateToLocalStorage Scenes.hollow Text.browser true Toy.noon
                    Toy.midgame)))
  = "Save state data is invalid.".
Proof.
  destruct (falsy_snapshot_is_lost Scenes.hollow Text.browser true Toy.noon 0
              Toy.midgame "game.nes:4:7c826827" Toy.at_4 JNull (Some Toy.at_4)
              eq_refl eq_refl eq_refl eq_refl eq_refl eq_refl eq_refl)
    as [_ ->].
  reflexivity.
Defined.

Lemma save_on_unsupported_build_witness :
  saveStateToLocalStorage Toy.bare Text.browser false Toy.noon Toy.midgame
  = (false,
     setStatus "Save failed: This jsnes build does not expose a save-state API."
       Toy.midgame).
Proof.
  exact (save_on_unsupported_build Toy.bare Text.browser false Toy.noon
           Toy.midgame "game.nes:4:7c826827" Toy.at_4
           eq_refl eq_refl eq_refl eq_refl).
Defined.

Lemma load_fails_late_witness :
  loadStateFromLocalStorage Toy.bare Text.browser 0
    (Toy.with_record (Text.print Toy.from_the_future))
  = setStatus "Load failed: This jsnes build does not expose a load-state API."
      (stop (Toy.with_record (Text.print Toy.from_the_future))).
Proof.
  refine (load_fails_late Toy.bare Text.browser 0
            (Toy.with_record (Text.print Toy.from_the_future)) Toy.slot
            (Text.print Toy.from_the_future) Toy.from_the_future
            (JObj [("ticks", JNum 9); ("pad", JNum 0)])
            "This jsnes build does not expose a load-state API."
            eq_refl eq_refl eq_refl eq_refl _).
  right. eexists. split; reflexivity.
Defined.

Lemma autosave_is_silent_witness :
  autosave Toy.engine Text.browser Toy.noon (Toy.boot None) = Toy.boot None.
Proof.
  exact (proj2 (autosave_is_silent Toy.engine Text.browser Toy.noon (Toy.boot None))
           eq_refl).
Defined.

(* ===================================================================== *)
(** * The audio bridge *)
(* ===================================================================== *)

Section AudioBridgeFacts.

Context {Sample Machine : Type}.
Context (zero : Sample).
Implicit Types q : list Sample.

(** X13.  The audio callback never waits and is never short: for a block
    of [n] frames it writes exactly [n] pairs, the pairs of the queue in
    their order for as long as there are any, then silence; and it takes
    from the queue exactly the pairs it wrote. *)
Theorem onaudioprocess_block (n : nat) (q : list Sample) :
  onaudioprocess zero n q
  = ((take n (pairs_of q)
      ++ replicate (n - length (pairs_of q)) (zero, zero))%list,
     drop (2 * Nat.min n (length (pairs_of q))) q)
  /\ length (fst (onaudioprocess zero n q)) = n.
Proof.
  assert (onaudioprocess zero n q
          = ((take n (pairs_of q)
              ++ replicate (n - length (pairs_of q)) (zero, zero))%list,
             drop (2 * Nat.min n (length (pairs_of q))) q)) as Heq.
  { revert q. induction n as [| n IH]; intros q.
    - cbn. now rewrite drop_0.
    - cbn [onaudioprocess].
      destruct q as [| l [| r rest]]; cbn [pull1 pairs_of].
      + rewrite IH. cbn [pairs_of length].
        rewrite !take_nil, !Nat.sub_0_r, !Nat.min_0_r. reflexivity.
      + rewrite IH. cbn [pairs_of length].
        rewrite !take_nil, !Nat.sub_0_r, !Nat.min_0_r. reflexivity.
      + rewrite IH. cbn [length take app Nat.sub Nat.min].
        replace (2 * S (Nat.min n (length (pairs_of rest))))%nat
          with (S (S (2 * Nat.min n (length (pairs_of rest)))))%nat by lia.
        reflexivity. }
  split; [exact Heq |].
  rewrite Heq. cbn [fst]. rewrite length_app, length_take, length_replicate. lia.
Qed.

Lemma pairs_of_drop (k : nat) : forall q, pairs_of (drop (2 * k) q) = drop k (pairs_of q).
Proof.
  induction k as [| k IH]; intros q.
  - now rewrite !drop_0.
  - replace (2 * S k)%nat with (S (S (2 * k))) by lia.
    destruct q as [| l [| r rest]]; cbn [drop pairs_of]; try reflexivity.
    apply IH.
Qed.

Lemma pairs_of_snoc (k : nat) : forall q (l r : Sample),
  length q = (2 * k)%nat -> pairs_of (q ++ [l; r])%list = (pairs_of q ++ [(l, r)])%list.
Proof.
  induction k as [| k IH]; intros q l r Hlen.
  - destruct q; [reflexivity | discriminate Hlen].
  - destruct q as [| a [| b rest]]; cbn in Hlen; try lia.
    cbn [app pairs_of]. f_equal. apply IH. lia.
Qed.

Lemma even_queue_half q : even_queue q -> exists k : nat, length q = (2 * k)%nat.
Proof.
  unfold even_queue, qlen. intros Heven.
  apply Z.even_spec in Heven. destruct Heven as [z Hz].
  exists (Z.to_nat z). lia.
Qed.

(** X14.  The queue is first in, first out, pair by pair: from a queue of
    even length, after the engine's callback the pairs queued are the pairs
    that were there followed by the new one, less the oldest pairs when the
    cap is exceeded. *)
Theorem onAudioSample_fifo (l r : Sample) (q : list Sample) :
  even_queue q ->
  pairs_of (onAudioSample l r q)
  = drop (Z.to_nat ((qlen q + 2 - max) / 2)) (pairs_of q ++ [(l, r)])%list.
Proof.
  intros Heven. destruct (even_queue_half q Heven) as [k Hk].
  rewrite onAudioSample_eq.
  assert (qlen q = 2 * Z.of_nat k) as Hq by (unfold qlen; lia).
  rewrite Hq. unfold max.
  replace (2 * Z.of_nat k + 2 - 44100 * 2) with (2 * (Z.of_nat k + 1 - 44100)) by lia.
  rewrite (Z.mul_comm 2), Z.div_mul by lia.
  replace (Z.to_nat ((Z.of_nat k + 1 - 44100) * 2))
    with (2 * Z.to_nat (Z.of_nat k + 1 - 44100))%nat by lia.
  rewrite pairs_of_drop. f_equal. now apply pairs_of_snoc with k.
Qed.

End AudioBridgeFacts.

Lemma onAudioSample_fifo_witness :
  pairs_of (onAudioSample 3 4 [1; 2])
  = drop (Z.to_nat ((qlen [1; 2] + 2 - max) / 2)) [(1, 2); (3, 4)].
Proof. exact (onAudioSample_fifo 3 4 [1; 2] eq_refl). Defined.

Section EnsureAudioFacts.

Context {Sample Machine : Type}.
Implicit Types p : player Sample Machine.

(** X15.  Initializing audio again never makes a second node or a second
    connection.  A call of [ensureAudio] that finds an audio context makes
    no node and leaves the one in place untouched.  A call that finds none,
    in a browser that has the facility, makes exactly one node, a new
    object with a buffer of 1024 frames, and connects it once.  So the
    second of two calls leaves the node of the first, with its identity
    and its single connection, and from the second call on the whole state
    is stable.  The first two calls can differ, because a context is
    created without being resumed and resumed by the next call. *)
Theorem ensureAudio_again (p : player Sample Machine) :
  audioNodeRef (ensureAudio (ensureAudio p)) = audioNodeRef (ensureAudio p)
  /\ next_node (ensureAudio (ensureAudio p)) = next_node (ensureAudio p)
  /\ ensureAudio (ensureAudio (ensureAudio p)) = ensureAudio (ensureAudio p)
  /\ (is_Some (audioCtxRef p) ->
      audioNodeRef (ensureAudio p) = audioNodeRef p
      /\ next_node (ensureAudio p) = next_node p)
  /\ (forall ctx, audioCtxRef p = None -> window_AudioContext p = Some ctx ->
      audioCtxRef (ensureAudio p) = Some ctx
      /\ audioNodeRef (ensureAudio p)
         = Some {| node_id := next_node p; bufferSize := 1024; connections := 1 |}
      /\ next_node (ensureAudio p) = Pos.succ (next_node p)
      /\ audioCtxRef (ensureAudio (ensureAudio p)) = Some (resume ctx))
  /\ (audioCtxRef p = None -> window_AudioContext p = Some Suspended ->
      audioCtxRef (ensureAudio p) = Some Suspended
      /\ audioCtxRef (ensureAudio (ensureAudio p)) = Some Live).
Proof.
  destruct p as [c rf rn n rb nm rk ctx node q tm st ln hs ls store w nh nn pr].
  unfold ensureAudio. cbn.
  destruct ctx as [[] |]; destruct w as [[] |]; cbn;
    (split; [reflexivity | split; [reflexivity | split; [reflexivity |]]]);
    (split; [intros [x Hx]; (discriminate Hx || (split; reflexivity)) |]);
    (split; [intros x Hctx Hw; (discriminate || (injection Hw as <-; repeat split))
            | intros Hctx Hw; (discriminate || (split; reflexivity))]).
Qed.

End EnsureAudioFacts.

Lemma ensureAudio_again_witness :
  audioNodeRef (ensureAudio (Toy.boot (Some Suspended)))
  = Some {| node_id := 1; bufferSize := 1024; connections := 1 |}
  /\ next_node (ensureAudio (Toy.boot (Some Suspended))) = 2%positive
  /\ audioCtxRef (ensureAudio (Toy.boot (Some Suspended))) = Some Suspended
  /\ audioCtxRef (ensureAudio (ensureAudio (Toy.boot (Some Suspended)))) = Some Live
  /\ audioNodeRef (ensureAudio (ensureAudio (Toy.boot (Some Suspended))))
     = audioNodeRef (ensureAudio (Toy.boot (Some Suspended)))
  /\ next_node (ensureAudio (ensureAudio (Toy.boot (Some Suspended)))) = 2%positive.
Proof.
  destruct (ensureAudio_again (Toy.boot (Some Suspended)))
    as (Hnode & Hnext & _ & _ & Hfirst & _).
  destruct (Hfirst Suspended eq_refl eq_refl) as (Hctx & Hmade & Hcount & Hlive).
  split; [exact Hmade |]. split; [exact Hcount |]. split; [exact Hctx |].
  split; [exact Hlive |]. split; [exact Hnode |].
  rewrite Hnext. exact Hcount.
Defined.

(* ===================================================================== *)
(** * Keys *)
(* ===================================================================== *)

Section KeyFacts.

Context {Sample Machine : Type}.
Context (J : jsnes Sample Machine).
Implicit Types p : player Sample Machine.

(** X17.  The keyboard map and the button map agree: every key code that
    [KEYMAP] knows names a button that [buttonMap] knows, so a mapped key
    always reaches the probing of the engine; a key code that [KEYMAP] does
    not know changes nothing; and a key event, pressed or released,
    changes nothing but the engine instance. *)
Theorem key_events (code : string) (p : player Sample Machine) :
  match KEYMAP code with
  | Some k => is_Some (buttonMap J k)
  | None => down J code p = p /\ up J code p = p
  end
  /\ down J code p = set_nesRef (nesRef (down J code p)) p
  /\ up J code p = set_nesRef (nesRef (up J code p)) p.
Proof.
  split; [| split].
  - unfold down, up, KEYMAP.
    repeat match goal with
           | |- context [String.eqb code ?s] => destruct (String.eqb code s)
           end;
      first [split; reflexivity | unfold buttonMap; cbn; eexists; reflexivity].
  - unfold down, press. repeat case_match; reflexivity.
  - unfold up, press. repeat case_match; reflexivity.
Qed.

End KeyFacts.

(* ===================================================================== *)
(** * Loading a ROM *)
(* ===================================================================== *)

Section LoadRomFacts.

Context {Sample Machine : Type}.
Context (J : jsnes Sample Machine) (B : host).
Implicit Types p : player Sample Machine.

Lemma startAutosaveTimer_eq p :
  startAutosaveTimer p
  = set_next_handle (Pos.succ (next_handle p))
      (set_autosaveTimerRef (Some (next_handle p)) p).
Proof. unfold startAutosaveTimer, stopAutosaveTimer. case_match; reflexivity. Qed.

(** A load that nothing interrupts, the call followed at once by the
    read of its file, is [loadRom]. *)
Lemma loadRom_uninterrupted (zero : Sample) (f : file) p :
  session zero J B [ChooseFile (Some f); FileRead (length (pending_reads p))] p
  = loadRom J B (Some f) p.
Proof.
  unfold session. cbn [fold_left handle]. unfold loadRom_start, loadRom.
  destruct (accepts f).
  - unfold loadRom_settle.
    change (pending_reads (set_pending_reads ?v _)) with v.
    rewrite lookup_app_r by reflexivity. rewrite Nat.sub_diag. cbn [lookup list_lookup].
    f_equal.
    assert (delete (length (pending_reads p)) (pending_reads p ++ [f])%list
            = pending_reads p) as ->
      by (rewrite delete_middle; apply app_nil_r).
    reflexivity.
  - unfold loadRom_settle.
    change (pending_reads (setStatus _ ?x)) with (pending_reads x).
    now rewrite lookup_ge_None_2.
Qed.

Lemma romKey_of_truthy (f : file) : truthy_string (romKey_of f) = true.
Proof. unfold romKey_of. destruct (name f); reflexivity. Qed.

(** X18.  After a ROM is loaded the session is loaded and not running,
    whatever it was doing, and the store is as before.  The status line
    announces a save exactly when the store holds a non-empty text under
    the key of this ROM, whether or not that text parses; the save
    indicator is raised only when it parses as well.  So a record that does
    not parse is announced while the indicator stays down. *)
Theorem loadRom_announces_save (f : file) (p : player Sample Machine)
    (booted : Machine) :
  accepts f = true ->
  loadROM J (Some (bin_of f)) (createNES J) = (Returned tt, booted) ->
  let slot := ("retro-arcade-web:nes:savestate:v1:" ++ romKey_of f)%string in
  status (loadRom J B (Some f) p)
  = (if truthy_ostring (localStorage p !! slot)
     then "Save found for this ROM. Click “Load Save” to continue."
     else "Loaded. Click Play (audio starts on Play).")
  /\ hasSave (loadRom J B (Some f) p)
     = match truthy_raw (localStorage p !! slot) with
       | Some raw =>
           match JSON_parse B raw with
           | Returned _ => true
           | Thrown _ => false
           end
       | None => false
       end
  /\ run_state_of (loadRom J B (Some f) p) = Loaded
  /\ rafRef (loadRom J B (Some f) p) = None
  /\ localStorage (loadRom J B (Some f) p) = localStorage p.
Proof.
  intros Hacc Hload slot. unfold loadRom. rewrite Hacc.
  unfold loadRom_resume. rewrite Hload, startAutosaveTimer_eq.
  set (ready := stop _).
  destruct (frame J booted) as [[cs o] m2] eqn:Hframe.
  rewrite (drawOneFrame_eq J ready booted cs o m2 eq_refl Hframe).
  set (drawn := set_audioQRef _ _).
  assert (getSaveStorageKey drawn = Some slot) as Hkey
    by (apply getSaveStorageKey_bound; [reflexivity | apply romKey_of_truthy]).
  assert (getSaveStorageKey (refreshSaveIndicators B drawn) = Some slot) as Hkey'.
  { unfold getSaveStorageKey. rewrite romKeyRef_refreshSaveIndicators. exact Hkey. }
  rewrite Hkey'.
  assert (localStorage (refreshSaveIndicators B drawn) = localStorage p) as Hstore
    by (unfold refreshSaveIndicators; repeat case_match; reflexivity).
  rewrite Hstore.
  assert (status (refreshSaveIndicators B drawn)
          = "Loaded. Click Play (audio starts on Play).") as Hstatus
    by (unfold refreshSaveIndicators; repeat case_match; reflexivity).
  assert (loadedName (refreshSaveIndicators B drawn) = name f
          /\ runningRef (refreshSaveIndicators B drawn) = false
          /\ rafRef (refreshSaveIndicators B drawn) = None) as (Hname & Hrun & Hraf)
    by (unfold refreshSaveIndicators; repeat case_match; repeat split).
  assert (hasSave (refreshSaveIndicators B drawn)
          = match truthy_raw (localStorage p !! slot) with
            | Some raw =>
                match JSON_parse B raw with
                | Returned _ => true
                | Thrown _ => false
                end
            | None => false
            end) as Hhas.
  { unfold refreshSaveIndicators. rewrite Hkey.
    change (localStorage drawn) with (localStorage p).
    repeat case_match; reflexivity. }
  pose proof (accepts_named f Hacc) as Hnamed.
  destruct (truthy_ostring (localStorage p !! slot));
    unfold run_state_of;
    repeat split; try assumption;
    try (change (loadedName (setStatus _ ?x)) with (loadedName x);
         change (runningRef (setStatus _ ?x)) with (runningRef x));
    rewrite ?Hname, ?Hnamed, ?Hrun; reflexivity.
Qed.


End LoadRomFacts.

Lemma loadRom_announces_save_witness :
  status (loadRom Toy.engine Text.browser (Some Toy.game)
            (Toy.with_record "{oops"))
  = "Save found for this ROM. Click “Load Save” to continue."
  /\ hasSave (loadRom Toy.engine Text.browser (Some Toy.game)
                (Toy.with_record "{oops")) = false.
Proof.
  destruct (loadRom_announces_save Toy.engine Text.browser Toy.game
              (Toy.with_record "{oops")
              {| Toy.rom := Some (bin_of Toy.game); Toy.ticks := 0; Toy.pad := 0 |}
              eq_refl eq_refl) as (Hstatus & Hhas & _).
  split; [exact Hstatus | exact Hhas].
Defined.


(* ===================================================================== *)
(** * The frame loop *)
(* ===================================================================== *)

Section LoopFacts.

Context {Sample Machine : Type}.
Context (zero : Sample) (J : jsnes Sample Machine) (B : host).
Implicit Types p : player Sample Machine.

Lemma canvas_after_app (cs1 cs2 : list (callback Sample)) canvas :
  canvas_after (cs1 ++ cs2) canvas = canvas_after cs2 (canvas_after cs1 canvas).
Proof. unfold canvas_after. apply fold_left_app. Qed.

Lemma queue_after_app (cs1 cs2 : list (callback Sample)) (q : list Sample) :
  queue_after (cs1 ++ cs2) q = queue_after cs2 (queue_after cs1 q).
Proof. unfold queue_after. apply fold_left_app. Qed.

(** One refresh of a running session whose frame returns. *)
Lemma loop_eq p m cs m' :
  runningRef p = true -> nesRef p = Some m -> frame J m = (cs, Returned tt, m') ->
  loop J p
  = (Returned tt,
     requestAnimationFrame
       (set_audioQRef (queue_after cs (audioQRef p))
          (set_canvasRef (canvas_after cs (canvasRef p))
             (set_nesRef (Some m') p)))).
Proof.
  intros Hrun Hm Hframe. unfold loop. rewrite Hrun, Hm, Hframe. cbn [negb].
  now rewrite run_callbacks_eq.
Qed.

(** X20.  A running session advances exactly one frame per display
    refresh: as long as the engine's frames return, after [n] refreshes the
    engine is the one reached by [n] calls of [frame], the canvas and the
    queue have received the callbacks of these [n] frames in order, and the
    loop is still running with a refresh scheduled. *)
Theorem refreshes_advance (n : nat) : forall (p : player Sample Machine) (m : Machine),
  runningRef p = true -> nesRef p = Some m -> frames_return J n m ->
  let p' := session zero J B (replicate n DisplayRefresh) p in
  nesRef p' = Some (machine_after J n m)
  /\ canvasRef p' = canvas_after (concat (next_frames J n m)) (canvasRef p)
  /\ audioQRef p' = queue_after (concat (next_frames J n m)) (audioQRef p)
  /\ runningRef p' = true
  /\ (n <> 0%nat -> is_Some (rafRef p')).
Proof.
  induction n as [| n IH]; intros p m Hrun Hm Hok.
  - cbn. repeat split; try assumption. intros Hn. now destruct Hn.
  - cbn [replicate]. unfold session. cbn [fold_left handle].
    fold (session zero J B (replicate n DisplayRefresh)).
    destruct Hok as [Hret Hok].
    destruct (frame J m) as [[cs o] m'] eqn:Hframe. cbn [fst snd] in Hret, Hok.
    subst o. rewrite (loop_eq p m cs m' Hrun Hm Hframe). cbn [snd].
    set (q := requestAnimationFrame _).
    destruct (IH q m' Hrun eq_refl Hok) as (Hn & Hc & Ha & Hr & Hs).
    cbn [machine_after next_frames concat]. rewrite Hframe. cbn [snd concat].
    rewrite canvas_after_app, queue_after_app.
    repeat split; try assumption.
    intros _. destruct n as [| n']; [| apply Hs; discriminate].
    cbn. eexists. reflexivity.
Qed.


(** X22.  After the cleanup of the component nothing of the loop, the
    timer or the audio is left to fire: the
    loop is stopped with no refresh pending, the autosave timer is cleared,
    the audio refs are released and the queue is empty, so that a late
    refresh or a late audio callback does nothing; and the cleanup is
    idempotent. *)
Theorem unmount_is_final (p : player Sample Machine) :
  unmount (unmount p) = unmount p
  /\ loop J (unmount p) = (Returned tt, unmount p)
  /\ audio_tick zero (unmount p) = ([], unmount p)
  /\ rafRef (unmount p) = None
  /\ autosaveTimerRef (unmount p) = None
  /\ audioCtxRef (unmount p) = None
  /\ audioNodeRef (unmount p) = None
  /\ audioQRef (unmount p) = [].
Proof.
  unfold unmount, stopAutosaveTimer, loop, audio_tick.
  destruct p as [c rf rn n rb nm rk ctx node q tm st ln hs ls store w nh nn pr].
  destruct tm; cbn; repeat split.
Qed.

End LoopFacts.

Lemma refreshes_advance_witness :
  nesRef (session 0 Toy.engine Text.browser (replicate 3 DisplayRefresh)
            (Toy.playing (Some Live)))
  = Some Toy.at_4.
Proof.
  refine (proj1 (refreshes_advance 0 Toy.engine Text.browser 3
                   (Toy.playing (Some Live))
                   {| Toy.rom := Some (bin_of Toy.game); Toy.ticks := 1; Toy.pad := 0 |}
                   eq_refl eq_refl _)).
  cbn. repeat split.
Defined.


Section ResetAgain.

Context {Sample Machine : Type}.
Context (J : jsnes Sample Machine).
Implicit Types p : player Sample Machine.

Lemma or_string_again (a b : string) : or_string a (or_string a b) = or_string a b.
Proof. unfold or_string. destruct (truthy_string a); reflexivity. Qed.

(** X23.  Reset is idempotent: for an engine that boots the retained ROM
    and whose first frame covers the canvas, a second reset right after the
    first leaves exactly the state the first one left. *)
Theorem reset_twice (p : player Sample Machine) (bin : string) (m1 m2 : Machine)
    (cs : list (callback Sample)) (o : outcome unit) (fb data : list Z) :
  romBinRef p = Some bin -> truthy_string bin = true ->
  loadROM J (Some bin) (createNES J) = (Returned tt, m1) ->
  frame J m1 = (cs, o, m2) ->
  frames_of cs = [fb] ->
  canvasRef p = Some data -> length data = (4 * length fb)%nat ->
  reset J (snd (reset J p)) = reset J p.
Proof.
  intros Hbin Ht Hload Hframe Hfb Hdata Hlen.
  rewrite (reset_eq J p bin m1 Hbin Ht Hload). cbn [snd].
  set (booted := setStatus _ _).
  rewrite (drawOneFrame_eq J booted m1 cs o m2 eq_refl Hframe).
  set (first := set_audioQRef _ _).
  rewrite (reset_eq J first bin m1 Hbin Ht Hload).
  set (booted' := setStatus _ _).
  rewrite (drawOneFrame_eq J booted' m1 cs o m2 eq_refl Hframe).
  f_equal.
  assert (canvas_after cs (canvasRef booted') = canvas_after cs (canvasRef booted))
    as Hcanvas.
  { change (canvasRef booted) with (canvasRef p).
    change (canvasRef booted') with (canvas_after cs (canvasRef p)).
    rewrite Hdata, (canvas_after_covered cs fb data Hfb Hlen).
    apply canvas_after_covered; [exact Hfb |]. rewrite image_length. lia. }
  rewrite Hcanvas.
  assert (or_string (romNameRef first) (loadedName first)
          = or_string (romNameRef p) (loadedName p)) as Hname
    by apply or_string_again.
  unfold booted', booted. rewrite Hname. reflexivity.
Qed.

End ResetAgain.

Lemma reset_twice_witness :
  reset Toy.engine (snd (reset Toy.engine Toy.midgame)) = reset Toy.engine Toy.midgame.
Proof.
  exact (reset_twice Toy.engine Toy.midgame (bin_of Toy.game)
           {| Toy.rom := Some (bin_of Toy.game); Toy.ticks := 0; Toy.pad := 0 |}
           {| Toy.rom := Some (bin_of Toy.game); Toy.ticks := 1; Toy.pad := 0 |}
           [OnAudioSample 0 0; OnFrame [0; 1]] (Returned tt) [0; 1]
           [3; 0; 0; 255; 4; 0; 0; 255]
           eq_refl eq_refl eq_refl eq_refl eq_refl eq_refl eq_refl).
Defined.
